(** * Basic quality-control filtering of a single-cell count matrix

    A shallow embedding of [bin/filtering-basic.py] (function
    [initialFiltering]) and of the parts of scanpy / anndata / numpy it
    calls, followed by the properties the specification states about it.

    Modelling conventions.
    - The count matrix [adata.X] is a list of rows (cells), each row a list
      of entries (one per gene).  [adata.obs] and [adata.var] are data
      frames: finite maps from a column name to a column.  Subsetting the
      object subsets every column.
    - [sc.read_loom] and [lp.create] are the boundary: the input is the
      object returned by the former, the output the arguments of the
      latter.
    - The script is embedded twice.  The first embedding takes the entries
      as integral counts in [Z], with exact sums, and the quotient of lines
      61-62 as an exact rational or one of the IEEE special values [nan],
      [+inf], [-inf] that numpy produces on a zero divisor ([fval]).  It is
      the script up to rounding, and carries the properties of masks,
      order, thresholds and zero totals.
    - The second embedding ([Generic]) is the same code over an arbitrary
      arithmetic [Arith]: whatever the sums, the quotient, the comparison
      with the threshold and the drawing of the plots compute.  What is
      proved there holds of the floating-point arithmetic the script runs
      on: the order and shape of the steps, what is recorded in [obs] and
      what is handed to [lp.create]. *)

From Stdlib Require Import ZArith QArith Lia.
From stdpp Require Import gmap strings list fin_maps.

Open Scope Z_scope.

(** ** Floating-point quotients *)

Inductive fval : Type :=
  | FNaN
  | FNegInf
  | FFin (q : Q)
  | FPosInf.

Definition Qltb (p q : Q) : bool :=
  (Qnum p * Zpos (Qden q) <? Qnum q * Zpos (Qden p))%Z.

(** [x < y] on floats: every comparison with [nan] is false. *)
Definition flt (x y : fval) : bool :=
  match x, y with
  | FNaN, _ | _, FNaN => false
  | FPosInf, _ => false
  | _, FNegInf => false
  | FNegInf, _ => true
  | FFin _, FPosInf => true
  | FFin p, FFin q => Qltb p q
  end.

(** [a / b] for two finite sums [a] and [b], as numpy divides: a zero
    divisor gives [nan] for [0/0] and a signed infinity otherwise. *)
Definition fdiv (a b : Z) : fval :=
  if (b =? 0)%Z then
    if (a =? 0)%Z then FNaN else if (0 <? a)%Z then FPosInf else FNegInf
  else FFin (Qred (inject_Z a / inject_Z b)).

(** ** numpy reductions and boolean-mask indexing *)

Module Np.

(** [l[mask]] for a boolean [mask] of the length of [l]. *)
Fixpoint mask_select {A : Type} (mask : list bool) (l : list A) : list A :=
  match mask, l with
  | b :: mask', x :: l' =>
      if b then x :: mask_select mask' l' else mask_select mask' l'
  | _, _ => []
  end.

(** [np.sum(v)] of one row or column. *)
Definition sum (v : list Z) : Z := foldr Z.add 0 v.

(** [np.sum(v > 0)]: the number of positive entries. *)
Definition count_pos (v : list Z) : Z :=
  Z.of_nat (length (filter (λ x, 0 < x) v)).

(** Column [j] of a matrix given by rows. *)
Definition column (j : nat) (M : list (list Z)) : list Z :=
  map (λ row, default 0 (row !! j)) M.

(** [M.transpose()] of a matrix with [n] columns. *)
Definition transpose (n : nat) (M : list (list Z)) : list (list Z) :=
  map (λ j, column j M) (seq 0 n).

(** [np.sum(M, axis=1)] and [np.sum(M > 0, axis=1)]: one value per row. *)
Definition sum_axis1 (M : list (list Z)) : list Z := map sum M.
Definition count_pos_axis1 (M : list (list Z)) : list Z := map count_pos M.

(** [np.sum(M, axis=0)] and [np.sum(M > 0, axis=0)]: one value per column
    of a matrix with [n] columns. *)
Definition sum_axis0 (n : nat) (M : list (list Z)) : list Z :=
  map (λ j, sum (column j M)) (seq 0 n).
Definition count_pos_axis0 (n : nat) (M : list (list Z)) : list Z :=
  map (λ j, count_pos (column j M)) (seq 0 n).

(** Element-wise [u / v]. *)
Definition divide (u v : list Z) : list fval := zip_with fdiv u v.

(** [v.min()] and [v.max()]; [None] stands for the [ValueError] numpy
    raises on an array of size zero. *)
Definition amin (v : list Z) : option Z :=
  match v with
  | [] => None
  | x :: v' => Some (foldr Z.min x v')
  end.

Definition amax (v : list Z) : option Z :=
  match v with
  | [] => None
  | x :: v' => Some (foldr Z.max x v')
  end.

End Np.

(** ** The annotated matrix (anndata) *)

Inductive column : Type :=
  | IntCol (l : list Z)
  | FloatCol (l : list fval)
  | StrCol (l : list string).

Definition col_select (mask : list bool) (c : column) : column :=
  match c with
  | IntCol l => IntCol (Np.mask_select mask l)
  | FloatCol l => FloatCol (Np.mask_select mask l)
  | StrCol l => StrCol (Np.mask_select mask l)
  end.

Record AnnData : Type := mkAnnData {
  X : list (list Z);
  obs_names : list string;
  var_names : list string;
  obs : gmap string column;
  var : gmap string column
}.

Definition n_obs (a : AnnData) : nat := length (obs_names a).
Definition n_vars (a : AnnData) : nat := length (var_names a).

(** The shape invariant anndata maintains: one identifier per row and per
    column of [X]. *)
Definition wf (a : AnnData) : Prop :=
  length (X a) = n_obs a ∧ Forall (λ row, length row = n_vars a) (X a).

(** The data model of the specification: counts are non-negative. *)
Definition nonneg_counts (a : AnnData) : Prop :=
  Forall (Forall (λ x, 0 <= x)) (X a).

(** [adata[mask, :]] and [adata._inplace_subset_obs(mask)]: rows, cell
    identifiers and every column of [obs] are masked together. *)
Definition subset_obs (mask : list bool) (a : AnnData) : AnnData :=
  {| X := Np.mask_select mask (X a);
     obs_names := Np.mask_select mask (obs_names a);
     var_names := var_names a;
     obs := col_select mask <$> obs a;
     var := var a |}.

(** [adata[:, mask]] and [adata._inplace_subset_var(mask)]. *)
Definition subset_var (mask : list bool) (a : AnnData) : AnnData :=
  {| X := map (Np.mask_select mask) (X a);
     obs_names := obs_names a;
     var_names := Np.mask_select mask (var_names a);
     obs := obs a;
     var := col_select mask <$> var a |}.

Definition set_obs (k : string) (c : column) (a : AnnData) : AnnData :=
  {| X := X a; obs_names := obs_names a; var_names := var_names a;
     obs := <[k := c]> (obs a); var := var a |}.

Definition set_var (k : string) (c : column) (a : AnnData) : AnnData :=
  {| X := X a; obs_names := obs_names a; var_names := var_names a;
     obs := obs a; var := <[k := c]> (var a) |}.

(** [adata.obs[k]] read as an integer, respectively float, column; [None]
    stands for the [KeyError] of a missing column. *)
Definition obs_int (k : string) (a : AnnData) : option (list Z) :=
  match obs a !! k with Some (IntCol l) => Some l | _ => None end.

Definition obs_float (k : string) (a : AnnData) : option (list fval) :=
  match obs a !! k with Some (FloatCol l) => Some l | _ => None end.

(** ** scanpy preprocessing *)

Module Scanpy.

(** [sc.pp.filter_cells(adata, min_genes=m)]: records the number of
    detected genes of every cell in [obs['n_genes']], then keeps the cells
    where it is at least [m]. *)
Definition filter_cells (min_genes : Z) (a : AnnData) : AnnData :=
  let number := Np.count_pos_axis1 (X a) in
  let cell_subset := map (λ n, bool_decide (min_genes <= n)) number in
  subset_obs cell_subset (set_obs "n_genes" (IntCol number) a).

(** [sc.pp.filter_genes(adata, min_cells=m)]: records the number of cells
    every gene is detected in in [var['n_cells']], then keeps the genes
    where it is at least [m]. *)
Definition filter_genes (min_cells : Z) (a : AnnData) : AnnData :=
  let number := Np.count_pos_axis0 (n_vars a) (X a) in
  let gene_subset := map (λ n, bool_decide (min_cells <= n)) number in
  subset_var gene_subset (set_var "n_cells" (IntCol number) a).

End Scanpy.

(** ** The script *)

Record Args : Type := mkArgs {
  loom_input : string;
  loom_filtered : string;
  thr_min_genes : Z;
  thr_min_cells : Z;
  thr_n_genes : Z;
  thr_pct_mito : fval
}.

(** Line 59: [adata.var_names.str.startswith('MT-')]. *)
Definition is_mito (gene : string) : bool := String.prefix "MT-" gene.
Definition mito_genes (a : AnnData) : list bool := map is_mito (var_names a).

(** Lines 54-55: the initial cuts. *)
Definition initial_cuts (args : Args) (a : AnnData) : AnnData :=
  Scanpy.filter_genes (thr_min_cells args)
    (Scanpy.filter_cells (thr_min_genes args) a).

(** Lines 61-62: the fraction of counts in mito genes, per cell. *)
Definition percent_mito (a : AnnData) : list fval :=
  Np.divide (Np.sum_axis1 (X (subset_var (mito_genes a) a)))
            (Np.sum_axis1 (X a)).

(** Lines 59-64: the two per-cell annotations. *)
Definition annotate (a : AnnData) : AnnData :=
  set_obs "n_counts" (IntCol (Np.sum_axis1 (X a)))
    (set_obs "percent_mito" (FloatCol (percent_mito a)) a).

(** Line 74. *)
Definition cut_n_genes (args : Args) (a : AnnData) : option AnnData :=
  n_genes ← obs_int "n_genes" a;
  Some (subset_obs (map (λ n, bool_decide (n < thr_n_genes args)) n_genes) a).

(** Line 75. *)
Definition cut_pct_mito (args : Args) (a : AnnData) : option AnnData :=
  pm ← obs_float "percent_mito" a;
  Some (subset_obs (map (λ f, flt f (thr_pct_mito args)) pm) a).

(** Lines 54-75: the filter engine. *)
Definition filter_engine (args : Args) (a : AnnData) : option AnnData :=
  cut_n_genes args (annotate (initial_cuts args a)) ≫= cut_pct_mito args.

(** The arguments of [lp.create]: the matrix, the row attributes and the
    column attributes. *)
Record Loom : Type := mkLoom {
  matrix : list (list Z);
  row_attrs : gmap string column;
  col_attrs : gmap string column
}.

(** Lines 79-88.  The transposed matrix has one row per gene and one
    column per row of [adata.X]. *)
Definition loom_output (a : AnnData) : Loom :=
  let Xt := Np.transpose (n_vars a) (X a) in
  let n := length (X a) in
  {| matrix := Xt;
     row_attrs := {[ "Gene" := StrCol (var_names a) ]};
     col_attrs :=
       <[ "CellID" := StrCol (obs_names a) ]>
       (<[ "nGene" := IntCol (Np.count_pos_axis0 n Xt) ]>
       {[ "nUMI" := IntCol (Np.sum_axis0 n Xt) ]}) |}.

(** The engine followed by the writer: what [lp.create] is given once the
    statistics are printed and the plots drawn (for these two, see
    [Generic.script]). *)
Definition initialFiltering (args : Args) (a : AnnData) : option Loom :=
  loom_output <$> filter_engine args a.

(** ** Words of the specification

    Genes-detected as the specification defines it, the restriction of a
    sequence to the positions a mask keeps, and the mitochondrial counts
    of a cell (sections 4.2 and 4.3). *)

Module Spec.

(** "count of nonzero entries" *)
Definition count_nonzero (v : list Z) : Z :=
  Z.of_nat (length (List.filter (λ x, negb (x =? 0)) v)).

(** Restriction of a sequence to the positions a mask keeps. *)
Definition restrict {A : Type} (keep : list bool) (l : list A) : list A :=
  map snd (List.filter fst (zip keep l)).

(** Mitochondrial counts of a cell: the sum restricted to the genes whose
    identifier starts with "MT-". *)
Definition mito_counts (genes : list string) (v : list Z) : Z :=
  Np.sum (restrict (map is_mito genes) v).

End Spec.

(** The states the engine goes through: the input, then the state after
    each of the five steps. *)
Definition stages (args : Args) (a : AnnData) : list AnnData :=
  let a1 := Scanpy.filter_cells (thr_min_genes args) a in
  let a2 := Scanpy.filter_genes (thr_min_cells args) a1 in
  let a3 := annotate a2 in
  match cut_n_genes args a3 with
  | None => [a; a1; a2; a3]
  | Some a4 =>
      match cut_pct_mito args a4 with
      | None => [a; a1; a2; a3; a4]
      | Some a5 => [a; a1; a2; a3; a4; a5]
      end
  end.

(** [b] is [a] narrowed: its cells and genes are subsequences of those of
    [a], and there are no more of them. *)
Definition narrows (a b : AnnData) : Prop :=
  obs_names b `sublist_of` obs_names a
  ∧ var_names b `sublist_of` var_names a
  ∧ obs_names b ⊆ obs_names a
  ∧ var_names b ⊆ var_names a
  ∧ (n_obs b <= n_obs a)%nat
  ∧ (n_vars b <= n_vars a)%nat
  ∧ (length (X b) <= length (X a))%nat.

(** [b] is [a] with the rows selected by [mc] and the columns selected by
    [mg], in their original order. *)
Definition selects (mc mg : list bool) (a b : AnnData) : Prop :=
  length mc = length (X a)
  ∧ length mg = n_vars a
  ∧ obs_names b = Np.mask_select mc (obs_names a)
  ∧ var_names b = Np.mask_select mg (var_names a)
  ∧ X b = map (Np.mask_select mg) (Np.mask_select mc (X a)).

(** Composition of two masks: [m2] applied to what [m1] keeps. *)
Fixpoint mask_and (m1 m2 : list bool) : list bool :=
  match m1 with
  | [] => []
  | true :: m1' =>
      match m2 with
      | [] => []
      | c :: m2' => c :: mask_and m1' m2'
      end
  | false :: m1' => false :: mask_and m1' m2
  end.

(** The mito fraction of one cell with counts [row] over the genes
    [genes]: what lines 61-62 compute row by row. *)
Definition mito_frac (genes : list string) (row : list Z) : fval :=
  fdiv (Np.sum (Np.mask_select (map is_mito genes) row)) (Np.sum row).

(** The masks of the three cell cuts: of line 54 on the input [a], of
    line 74 from the genes-detected of the cells [a1] that line 54 kept,
    and of line 75 on the state [a4] that line 74 produced. *)
Definition mask_min_genes (args : Args) (a : AnnData) : list bool :=
  map (λ row, bool_decide (thr_min_genes args <= Np.count_pos row)) (X a).

Definition mask_n_genes (args : Args) (a1 : AnnData) : list bool :=
  map (λ row, bool_decide (Np.count_pos row < thr_n_genes args)) (X a1).

Definition mask_pct_mito (args : Args) (a4 : AnnData) : list bool :=
  map (λ row, flt (mito_frac (var_names a4) row) (thr_pct_mito args)) (X a4).

(** The mask of the gene cut of line 55 on the state [a1]. *)
Definition mask_min_cells (args : Args) (a1 : AnnData) : list bool :=
  map (λ j, bool_decide (thr_min_cells args <= Np.count_pos (Np.column j (X a1))))
      (seq 0 (n_vars a1)).

(** The mito fractions recorded in [obs] are those of the rows at hand. *)
Definition pm_aligned (a : AnnData) : Prop :=
  obs_float "percent_mito" a = Some (map (mito_frac (var_names a)) (X a)).

(** The state after line 74 and the state after line 75, by their masks. *)
Definition after_n_genes (args : Args) (a : AnnData) : AnnData :=
  subset_obs (mask_n_genes args (Scanpy.filter_cells (thr_min_genes args) a))
    (annotate (initial_cuts args a)).

Definition after_pct_mito (args : Args) (a : AnnData) : AnnData :=
  subset_obs (mask_pct_mito args (after_n_genes args a))
    (after_n_genes args a).

(** Two states hold the same matrix under the same identifiers. *)
Definition same_data (a b : AnnData) : Prop :=
  X a = X b ∧ obs_names a = obs_names b ∧ var_names a = var_names b.

(** ** The statistics printed before the cuts *)

(** Lines 36-37. *)
Definition nCountsPerGene (a : AnnData) : list Z :=
  Np.sum_axis0 (n_vars a) (X a).
Definition nCellsPerGene (a : AnnData) : list Z :=
  Np.count_pos_axis0 (n_vars a) (X a).

(** Line 43: [adata.X.shape[0]]. *)
Definition nCells (a : AnnData) : nat := length (X a).

(** What lines 40-50 print: the range of counts per gene, the range of
    cells per gene, and the two pySCENIC thresholds [3*.01*nCells] and
    [.01*nCells]. *)
Record Report : Type := mkReport {
  counts_per_gene : Z * Z;
  cells_per_gene : Z * Z;
  minCountsPerGene : Q;
  minSamples : Q
}.

(** Lines 36-50. *)
Definition print_stats (a : AnnData) : option Report :=
  lo ← Np.amin (nCountsPerGene a);
  hi ← Np.amax (nCountsPerGene a);
  clo ← Np.amin (nCellsPerGene a);
  chi ← Np.amax (nCellsPerGene a);
  Some {| counts_per_gene := (lo, hi);
          cells_per_gene := (clo, chi);
          minCountsPerGene := ((3 # 100) * inject_Z (Z.of_nat (nCells a)))%Q;
          minSamples := ((1 # 100) * inject_Z (Z.of_nat (nCells a)))%Q |}.

(** The cells two masks keep in a row of three lists that go together:
    [m] is applied to [l] and [k], then the test [f] on what is left of
    [l] selects what is left of [k] (lines 74-75 on rows and names). *)
Definition select_twice {A B : Type} (f : A → bool) (m : list bool)
    (l : list A) (k : list B) : list B :=
  Np.mask_select (map f (Np.mask_select m l)) (Np.mask_select m k).

(** ** The script over the arithmetic of the machine

    The matrix read by [sc.read_loom] holds floating-point numbers, and the
    sums, the quotient and the comparison of lines 61-64 and 75 are those
    of numpy on such numbers: they round.  This second embedding of the
    same lines leaves that arithmetic open.  [V] is the type of the entries
    and of their sums, [F] the type of the quotients, [T] the type of the
    threshold given on the command line; [Arith] collects the operations
    the script applies to them, whatever they compute: [x > 0] and
    [x != 0] on an entry; the sum of one row by [sum(axis=1)] (lines
    61-64), of one column by [np.sum(_, axis=0)] (line 36) and of one
    column of the transposed matrix (line 85), which need not round
    alike; the quotient of line 62; the comparison of line 75; [min()] and
    [max()] of line 40.  Counting entries that are positive is counting,
    and is exact. *)

Record Arith (V F T : Type) : Type := mkArith {
  vzero : V;
  is_pos : V → bool;
  is_nonzero : V → bool;
  vsum : list V → V;
  vsum_gene : list V → V;
  vsum_cell : list V → V;
  vdiv : V → V → F;
  below : F → T → bool;
  vleast : list V → V;
  vgreatest : list V → V
}.

Arguments vzero {V F T} _.
Arguments is_pos {V F T} _ _.
Arguments is_nonzero {V F T} _ _.
Arguments vsum {V F T} _ _.
Arguments vdiv {V F T} _ _ _.
Arguments below {V F T} _ _ _.
Arguments vsum_gene {V F T} _ _.
Arguments vsum_cell {V F T} _ _.
Arguments vleast {V F T} _ _.
Arguments vgreatest {V F T} _ _.

Module Generic.

Section model.

Context {V F T : Type}.
Variable ops : Arith V F T.

(** [np.sum(v > 0)]. *)
Definition count_pos (v : list V) : Z :=
  Z.of_nat (length (List.filter (is_pos ops) v)).

Definition column_of (j : nat) (M : list (list V)) : list V :=
  map (λ row, default (vzero ops) (row !! j)) M.

(** [M.transpose()] of a matrix with [n] columns. *)
Definition transpose (n : nat) (M : list (list V)) : list (list V) :=
  map (λ j, column_of j M) (seq 0 n).

(** [np.sum(M, axis=1)], [np.sum(M > 0, axis=1)] and the same along
    [axis=0] for a matrix with [n] columns. *)
Definition sum_axis1 (M : list (list V)) : list V := map (vsum ops) M.
Definition count_pos_axis1 (M : list (list V)) : list Z := map count_pos M.
Definition sum_axis0 (g : list V → V) (n : nat) (M : list (list V))
  : list V :=
  map (λ j, g (column_of j M)) (seq 0 n).
Definition count_pos_axis0 (n : nat) (M : list (list V)) : list Z :=
  map (λ j, count_pos (column_of j M)) (seq 0 n).

(** Element-wise [u / v]. *)
Definition divide (u v : list V) : list F := zip_with (vdiv ops) u v.

(** [v.min()] and [v.max()]; [None] is the [ValueError] on size zero. *)
Definition amin (v : list V) : option V :=
  match v with
  | [] => None
  | _ :: _ => Some (vleast ops v)
  end.

Definition amax (v : list V) : option V :=
  match v with
  | [] => None
  | _ :: _ => Some (vgreatest ops v)
  end.

(** A column of a data frame: integers, numbers of the matrix, quotients,
    or strings. *)
Inductive column : Type :=
  | IntCol (l : list Z)
  | NumCol (l : list V)
  | FloatCol (l : list F)
  | StrCol (l : list string).

Definition col_select (mask : list bool) (c : column) : column :=
  match c with
  | IntCol l => IntCol (Np.mask_select mask l)
  | NumCol l => NumCol (Np.mask_select mask l)
  | FloatCol l => FloatCol (Np.mask_select mask l)
  | StrCol l => StrCol (Np.mask_select mask l)
  end.

Record AnnData : Type := mkAnnData {
  X : list (list V);
  obs_names : list string;
  var_names : list string;
  obs : gmap string column;
  var : gmap string column
}.

Definition n_obs (a : AnnData) : nat := length (obs_names a).
Definition n_vars (a : AnnData) : nat := length (var_names a).

(** One identifier per row and per column of [X]. *)
Definition wf (a : AnnData) : Prop :=
  length (X a) = n_obs a ∧ Forall (λ row, length row = n_vars a) (X a).

(** The data model of the specification, as far as the script can tell:
    no entry is negative, so an entry is positive exactly when it is not
    zero. *)
Definition counts_nonneg (a : AnnData) : Prop :=
  Forall (Forall (λ x, is_pos ops x = is_nonzero ops x)) (X a).

Definition subset_obs (mask : list bool) (a : AnnData) : AnnData :=
  {| X := Np.mask_select mask (X a);
     obs_names := Np.mask_select mask (obs_names a);
     var_names := var_names a;
     obs := col_select mask <$> obs a;
     var := var a |}.

Definition subset_var (mask : list bool) (a : AnnData) : AnnData :=
  {| X := map (Np.mask_select mask) (X a);
     obs_names := obs_names a;
     var_names := Np.mask_select mask (var_names a);
     obs := obs a;
     var := col_select mask <$> var a |}.

Definition set_obs (k : string) (c : column) (a : AnnData) : AnnData :=
  {| X := X a; obs_names := obs_names a; var_names := var_names a;
     obs := <[k := c]> (obs a); var := var a |}.

Definition set_var (k : string) (c : column) (a : AnnData) : AnnData :=
  {| X := X a; obs_names := obs_names a; var_names := var_names a;
     obs := obs a; var := <[k := c]> (var a) |}.

(** [adata.obs[k]]; [None] is the [KeyError] of a missing column. *)
Definition obs_int (k : string) (a : AnnData) : option (list Z) :=
  match obs a !! k with Some (IntCol l) => Some l | _ => None end.

Definition obs_num (k : string) (a : AnnData) : option (list V) :=
  match obs a !! k with Some (NumCol l) => Some l | _ => None end.

Definition obs_float (k : string) (a : AnnData) : option (list F) :=
  match obs a !! k with Some (FloatCol l) => Some l | _ => None end.

(** [sc.pp.filter_cells(adata, min_genes=m)]. *)
Definition filter_cells (min_genes : Z) (a : AnnData) : AnnData :=
  let number := count_pos_axis1 (X a) in
  let cell_subset := map (λ n, bool_decide (min_genes <= n)) number in
  subset_obs cell_subset (set_obs "n_genes" (IntCol number) a).

(** [sc.pp.filter_genes(adata, min_cells=m)]. *)
Definition filter_genes (min_cells : Z) (a : AnnData) : AnnData :=
  let number := count_pos_axis0 (n_vars a) (X a) in
  let gene_subset := map (λ n, bool_decide (min_cells <= n)) number in
  subset_var gene_subset (set_var "n_cells" (IntCol number) a).

Record Args : Type := mkArgs {
  loom_input : string;
  loom_filtered : string;
  thr_min_genes : Z;
  thr_min_cells : Z;
  thr_n_genes : Z;
  thr_pct_mito : T
}.

(** Line 59. *)
Definition mito_genes (a : AnnData) : list bool := map is_mito (var_names a).

(** Lines 54-55. *)
Definition initial_cuts (args : Args) (a : AnnData) : AnnData :=
  filter_genes (thr_min_cells args) (filter_cells (thr_min_genes args) a).

(** Lines 61-62. *)
Definition percent_mito (a : AnnData) : list F :=
  divide (sum_axis1 (X (subset_var (mito_genes a) a))) (sum_axis1 (X a)).

(** Lines 59-64. *)
Definition annotate (a : AnnData) : AnnData :=
  set_obs "n_counts" (NumCol (sum_axis1 (X a)))
    (set_obs "percent_mito" (FloatCol (percent_mito a)) a).

(** Line 74. *)
Definition cut_n_genes (args : Args) (a : AnnData) : option AnnData :=
  n_genes ← obs_int "n_genes" a;
  Some (subset_obs (map (λ n, bool_decide (n < thr_n_genes args)) n_genes) a).

(** Line 75. *)
Definition cut_pct_mito (args : Args) (a : AnnData) : option AnnData :=
  pm ← obs_float "percent_mito" a;
  Some (subset_obs (map (λ f, below ops f (thr_pct_mito args)) pm) a).

(** Lines 54-75 without the plots: the filter engine. *)
Definition filter_engine (args : Args) (a : AnnData) : option AnnData :=
  cut_n_genes args (annotate (initial_cuts args a)) ≫= cut_pct_mito args.

(** The arguments of [lp.create]. *)
Record Loom : Type := mkLoom {
  matrix : list (list V);
  row_attrs : gmap string column;
  col_attrs : gmap string column
}.

(** Lines 79-88. *)
Definition loom_output (a : AnnData) : Loom :=
  let Xt := transpose (n_vars a) (X a) in
  let n := length (X a) in
  {| matrix := Xt;
     row_attrs := {[ "Gene" := StrCol (var_names a) ]};
     col_attrs :=
       <[ "CellID" := StrCol (obs_names a) ]>
       (<[ "nGene" := IntCol (count_pos_axis0 n Xt) ]>
       {[ "nUMI" := NumCol (sum_axis0 (vsum_cell ops) n Xt) ]}) |}.

(** What lines 40-41 print, and the number of cells of line 43, of which
    the two thresholds printed by lines 47 and 50 are multiples. *)
Record Report : Type := mkReport {
  counts_per_gene : V * V;
  cells_per_gene : Z * Z;
  cells : nat
}.

(** Lines 36-50. *)
Definition print_stats (a : AnnData) : option Report :=
  lo ← amin (sum_axis0 (vsum_gene ops) (n_vars a) (X a));
  hi ← amax (sum_axis0 (vsum_gene ops) (n_vars a) (X a));
  clo ← Np.amin (count_pos_axis0 (n_vars a) (X a));
  chi ← Np.amax (count_pos_axis0 (n_vars a) (X a));
  Some {| counts_per_gene := (lo, hi);
          cells_per_gene := (clo, chi);
          cells := length (X a) |}.

(** Lines 68-72 read three columns of [obs] and draw them.  Drawing is
    the work of scanpy and matplotlib; [draws] says whether they return
    on the columns they are given, and is left open. *)
Variable draws : list Z → list V → list F → bool.

Definition plot (a : AnnData) : option unit :=
  ng ← obs_int "n_genes" a;
  nc ← obs_num "n_counts" a;
  pm ← obs_float "percent_mito" a;
  if draws ng nc pm then Some () else None.

(** Lines 25-88 in full.  [None] is an exception before [lp.create] is
    called; [Some] carries what was printed and what [lp.create] gets. *)
Definition script (args : Args) (a : AnnData) : option (Report * Loom) :=
  r ← print_stats a;
  let a3 := annotate (initial_cuts args a) in
  _ ← plot a3;
  a4 ← cut_n_genes args a3;
  a5 ← cut_pct_mito args a4;
  Some (r, loom_output a5).

(** The steps of the specification (sections 4.2 and 4.3), on cells that
    carry their annotations with them. *)

(** "count of nonzero entries" *)
Definition count_nonzero (v : list V) : Z :=
  Z.of_nat (length (List.filter (is_nonzero ops) v)).

Record Cell : Type := mkCell {
  cell_id : string;
  counts : list V;
  genes_detected : Z
}.

Record QCell : Type := mkQCell {
  base : Cell;
  total_counts : V;
  mito_fraction : F
}.

(** Step 1: keep cells with genes-detected >= [thr]. *)
Definition step1 (thr : Z) (input : list (string * list V)) : list Cell :=
  List.filter (λ c, thr <=? genes_detected c)
    (map (λ ir, mkCell ir.1 ir.2 (count_nonzero ir.2)) input).

Definition cells_detected (j : nat) (cs : list Cell) : Z :=
  Z.of_nat (length
    (List.filter
       (λ c, is_nonzero ops (default (vzero ops) (counts c !! j))) cs)).

(** Step 2: keep genes with cells-detected >= [thr], counted on the cells
    that survived step 1. *)
Definition step2 (thr : Z) (genes : list string) (cs : list Cell)
  : list string * list Cell :=
  let keep :=
    map (λ j, thr <=? cells_detected j cs) (seq 0 (length genes)) in
  (Spec.restrict keep genes,
   map (λ c, mkCell (cell_id c) (Spec.restrict keep (counts c))
               (genes_detected c)) cs).

(** The sum restricted to the genes whose identifier starts with "MT-". *)
Definition mito_counts (genes : list string) (v : list V) : V :=
  vsum ops (Spec.restrict (map is_mito genes) v).

(** Step 3: total counts and mito fraction on the narrowed matrix. *)
Definition step3 (genes : list string) (cs : list Cell) : list QCell :=
  map (λ c, mkQCell c (vsum ops (counts c))
              (vdiv ops (mito_counts genes (counts c)) (vsum ops (counts c))))
      cs.

(** Step 4: keep cells with genes-detected < [thr]. *)
Definition step4 (thr : Z) (cs : list QCell) : list QCell :=
  List.filter (λ q, genes_detected (base q) <? thr) cs.

(** Step 5: keep cells with mito fraction < [thr]. *)
Definition step5 (thr : T) (cs : list QCell) : list QCell :=
  List.filter (λ q, below ops (mito_fraction q) thr) cs.

Definition pipeline (args : Args) (genes : list string)
    (input : list (string * list V)) : list string * list QCell :=
  let c1 := step1 (thr_min_genes args) input in
  let gc := step2 (thr_min_cells args) genes c1 in
  (gc.1, step5 (thr_pct_mito args)
           (step4 (thr_n_genes args) (step3 gc.1 gc.2))).

(** The annotated matrix [a] holds exactly the cells [cs] over the genes
    [genes]: identifiers, rows and the three per-cell annotations are
    aligned with one another. *)
Definition represents (a : AnnData) (genes : list string)
    (cs : list QCell) : Prop :=
  var_names a = genes
  ∧ obs_names a = map (λ q, cell_id (base q)) cs
  ∧ X a = map (λ q, counts (base q)) cs
  ∧ obs a !! "n_genes"
      = Some (IntCol (map (λ q, genes_detected (base q)) cs))
  ∧ obs a !! "n_counts" = Some (NumCol (map total_counts cs))
  ∧ obs a !! "percent_mito" = Some (FloatCol (map mito_fraction cs)).

(** The same before step 3, when only genes-detected is recorded. *)
Definition represents_cut (a : AnnData) (genes : list string)
    (cs : list Cell) : Prop :=
  var_names a = genes
  ∧ obs_names a = map cell_id cs
  ∧ X a = map counts cs
  ∧ obs a !! "n_genes" = Some (IntCol (map genes_detected cs)).

(** The state after line 74 and the state after line 75, by their masks,
    and the fraction of one row. *)
Definition mito_frac (genes : list string) (row : list V) : F :=
  vdiv ops (vsum ops (Np.mask_select (map is_mito genes) row)) (vsum ops row).

Definition mask_n_genes (args : Args) (a1 : AnnData) : list bool :=
  map (λ row, bool_decide (count_pos row < thr_n_genes args)) (X a1).

Definition mask_pct_mito (args : Args) (a4 : AnnData) : list bool :=
  map (λ row, below ops (mito_frac (var_names a4) row) (thr_pct_mito args))
      (X a4).

Definition after_n_genes (args : Args) (a : AnnData) : AnnData :=
  subset_obs (mask_n_genes args (filter_cells (thr_min_genes args) a))
    (annotate (initial_cuts args a)).

Definition after_pct_mito (args : Args) (a : AnnData) : AnnData :=
  subset_obs (mask_pct_mito args (after_n_genes args a))
    (after_n_genes args a).

End model.

Arguments column : clear implicits.
Arguments AnnData : clear implicits.
Arguments Args : clear implicits.
Arguments Loom : clear implicits.
Arguments Report : clear implicits.
Arguments Cell : clear implicits.
Arguments QCell : clear implicits.

End Generic.

(** The arithmetic of the first embedding, on integer counts: exact sums
    and exact quotients. *)
Definition exact_arith : Arith Z fval fval :=
  {| vzero := 0;
     is_pos := λ x, bool_decide (0 < x);
     is_nonzero := λ x, negb (x =? 0);
     vsum := Np.sum;
     vsum_gene := Np.sum;
     vsum_cell := Np.sum;
     vdiv := fdiv;
     below := flt;
     vleast := λ v, default 0 (Np.amin v);
     vgreatest := λ v, default 0 (Np.amax v) |}.

(** ** Sample data *)

Definition sample_args : Args :=
  {| loom_input := "unfiltered.loom"; loom_filtered := "filtered.loom";
     thr_min_genes := 2; thr_min_cells := 2; thr_n_genes := 5000;
     thr_pct_mito := FFin (1 # 4) |}.

(** Three cells over three genes; the third gene is seen in one cell only. *)
Definition sample : AnnData :=
  {| X := [[1; 0; 1]; [1; 1; 0]; [1; 1; 0]];
     obs_names := ["c1"; "c2"; "c3"];
     var_names := ["g1"; "g2"; "g3"];
     obs := ∅; var := ∅ |}.

(** The scenario of the specification: five cells, "MT-CO1" with counts
    [10,0,0,0,0] and total counts [20,5,5,5,5]. *)
Definition scenario : AnnData :=
  {| X := [[10; 10]; [0; 5]; [0; 5]; [0; 5]; [0; 5]];
     obs_names := ["c1"; "c2"; "c3"; "c4"; "c5"];
     var_names := ["MT-CO1"; "ACTB"];
     obs := ∅; var := ∅ |}.

Definition scenario_args : Args :=
  {| loom_input := "unfiltered.loom"; loom_filtered := "filtered.loom";
     thr_min_genes := 1; thr_min_cells := 1; thr_n_genes := 5000;
     thr_pct_mito := FFin (1 # 4) |}.

(** Thresholds that contradict each other, a mito threshold that is not a
    number, and two relaxations of the sample thresholds. *)
Definition window_args : Args :=
  {| loom_input := "unfiltered.loom"; loom_filtered := "filtered.loom";
     thr_min_genes := 2; thr_min_cells := 1; thr_n_genes := 2;
     thr_pct_mito := FFin (1 # 4) |}.

Definition nan_args : Args :=
  {| loom_input := "unfiltered.loom"; loom_filtered := "filtered.loom";
     thr_min_genes := 1; thr_min_cells := 1; thr_n_genes := 5000;
     thr_pct_mito := FNaN |}.

Definition more_genes_args : Args :=
  {| loom_input := "unfiltered.loom"; loom_filtered := "filtered.loom";
     thr_min_genes := 1; thr_min_cells := 1; thr_n_genes := 6000;
     thr_pct_mito := FFin (1 # 4) |}.

Definition more_mito_args : Args :=
  {| loom_input := "unfiltered.loom"; loom_filtered := "filtered.loom";
     thr_min_genes := 1; thr_min_cells := 1; thr_n_genes := 5000;
     thr_pct_mito := FFin (3 # 4) |}.

(** The sample as a file that already carries annotations. *)
Definition sample_annotated : AnnData :=
  {| X := X sample; obs_names := obs_names sample;
     var_names := var_names sample;
     obs := {[ "n_genes" := IntCol [7; 7; 7] ]};
     var := {[ "n_cells" := IntCol [9; 9; 9] ]} |}.

(** Thresholds under which no cell of the sample passes line 54. *)
Definition strict_args : Args :=
  {| loom_input := "unfiltered.loom"; loom_filtered := "filtered.loom";
     thr_min_genes := 4; thr_min_cells := 1; thr_n_genes := 5000;
     thr_pct_mito := FFin (1 # 4) |}.

(** A matrix on whose output a second run cuts a gene, after which the
    mito cut removes a cell that passed it the first time. *)
Definition rerun_args : Args :=
  {| loom_input := "unfiltered.loom"; loom_filtered := "filtered.loom";
     thr_min_genes := 1; thr_min_cells := 2; thr_n_genes := 5000;
     thr_pct_mito := FFin (1 # 2) |}.

Definition rerun_case : AnnData :=
  {| X := [[2; 1; 2]; [5; 0; 1]; [1; 3; 0]];
     obs_names := ["c1"; "c2"; "c3"];
     var_names := ["MT-A"; "G1"; "G2"];
     obs := ∅; var := ∅ |}.

(** One cell over a gene that starts with "MT-" and one that starts with
    "mt-", with [n] counts of the latter. *)
Definition lowercase_case (n : Z) : AnnData :=
  {| X := [[10; n]];
     obs_names := ["c1"];
     var_names := ["MT-CO1"; "mt-nd1"];
     obs := ∅; var := ∅ |}.

Definition lowercase_args : Args :=
  {| loom_input := "unfiltered.loom"; loom_filtered := "filtered.loom";
     thr_min_genes := 1; thr_min_cells := 1; thr_n_genes := 5000;
     thr_pct_mito := FFin (3 # 8) |}.

(** The sample data as input of the second embedding, read from a file
    without annotations; and a drawing that fails exactly when it is given
    no cell. *)
Definition to_generic (a : AnnData) : Generic.AnnData Z fval :=
  {| Generic.X := X a;
     Generic.obs_names := obs_names a;
     Generic.var_names := var_names a;
     Generic.obs := ∅;
     Generic.var := ∅ |}.

Definition to_generic_args (args : Args) : Generic.Args fval :=
  {| Generic.loom_input := loom_input args;
     Generic.loom_filtered := loom_filtered args;
     Generic.thr_min_genes := thr_min_genes args;
     Generic.thr_min_cells := thr_min_cells args;
     Generic.thr_n_genes := thr_n_genes args;
     Generic.thr_pct_mito := thr_pct_mito args |}.

Definition g_sample : Generic.AnnData Z fval := to_generic sample.
Definition g_sample_args : Generic.Args fval := to_generic_args sample_args.
Definition g_strict_args : Generic.Args fval := to_generic_args strict_args.

Definition draws_some_cell (ng : list Z) (nc : list Z) (pm : list fval)
  : bool :=
  match ng with [] => false | _ :: _ => true end.

(** * Properties *)

(** ** Boolean masks *)

Section mask.
Context {A : Type}.
Implicit Types (m : list bool) (l : list A).

Lemma mask_select_nil_r m : Np.mask_select m (@nil A) = [].
Proof. by destruct m. Qed.

Lemma mask_select_sublist m l : Np.mask_select m l `sublist_of` l.
Proof.
  revert l. induction m as [|b m IH]; intros [|x l]; simpl;
    try apply sublist_nil_l.
  destruct b; [apply sublist_skip | apply sublist_cons]; apply IH.
Qed.

Lemma mask_select_length_le m l :
  (length (Np.mask_select m l) <= length l)%nat.
Proof. apply sublist_length, mask_select_sublist. Qed.

Lemma mask_select_all m l :
  Forall (λ b, b = true) m → (length l <= length m)%nat →
  Np.mask_select m l = l.
Proof.
  intros Hm. revert l. induction Hm as [|b m -> _ IH]; intros [|x l] Hl;
    simpl in *; try done; try lia.
  f_equal. apply IH. lia.
Qed.

Lemma mask_select_Forall (P : A → Prop) m l :
  Forall P l → Forall P (Np.mask_select m l).
Proof.
  intros H. revert m. induction H as [|x l Hx _ IH]; intros [|b m]; simpl;
    try constructor.
  destruct b; [constructor|]; auto.
Qed.

(** What a mask computed from the list itself keeps satisfies the test. *)
Lemma mask_select_test (p : A → bool) l :
  Forall (λ x, p x = true) (Np.mask_select (map p l) l).
Proof.
  induction l as [|x l IH]; simpl; [constructor|].
  destruct (p x) eqn:E; [constructor|]; done.
Qed.

Lemma mask_select_filter (p : A → bool) l :
  Np.mask_select (map p l) l = List.filter p l.
Proof.
  induction l as [|x l IH]; simpl; [done|].
  destruct (p x); by rewrite IH.
Qed.

Lemma mask_select_restrict m l : Np.mask_select m l = Spec.restrict m l.
Proof.
  unfold Spec.restrict. revert l.
  induction m as [|b m IH]; intros [|x l]; simpl; try done.
  destruct b; simpl; by rewrite IH.
Qed.

Lemma mask_select_and m1 m2 l :
  Np.mask_select m2 (Np.mask_select m1 l)
  = Np.mask_select (mask_and m1 m2) l.
Proof.
  revert m2 l. induction m1 as [|b m1 IH]; intros m2 l; simpl.
  - by rewrite mask_select_nil_r.
  - destruct l as [|x l].
    + rewrite mask_select_nil_r. destruct b; [by destruct m2 | done].
    + destruct b; simpl.
      * destruct m2 as [|c m2]; simpl; [done|]. rewrite IH. done.
      * apply IH.
Qed.

Lemma mask_and_length m1 m2 l :
  length m1 = length l → length m2 = length (Np.mask_select m1 l) →
  length (mask_and m1 m2) = length m1.
Proof.
  revert m2 l. induction m1 as [|b m1 IH]; intros m2 [|x l] H1 H2;
    simpl in *; try done.
  destruct b; simpl in *.
  - destruct m2 as [|c m2]; simpl in *; [done|].
    f_equal. eapply IH; eauto with lia.
  - f_equal. eapply IH; eauto with lia.
Qed.

End mask.

Lemma mask_select_map {A B : Type} (f : A → B) m (l : list A) :
  Np.mask_select m (map f l) = map f (Np.mask_select m l).
Proof.
  revert l. induction m as [|b m IH]; intros [|x l]; simpl; try done.
  destruct b; simpl; by rewrite IH.
Qed.

Lemma mask_select_map_test {A B : Type} (f : A → B) (p : A → bool)
    (l : list A) :
  Np.mask_select (map p l) (map f l) = map f (List.filter p l).
Proof. by rewrite mask_select_map, mask_select_filter. Qed.

Lemma all_true_map {A : Type} (p : A → bool) (l : list A) :
  Forall (λ x, p x = true) l → Forall (λ b, b = true) (map p l).
Proof. intros H. apply Forall_map. exact H. Qed.

(** ** Columns of the data frames *)

Lemma obs_int_subset_obs k m a :
  obs_int k (subset_obs m a) = Np.mask_select m <$> obs_int k a.
Proof.
  unfold obs_int, subset_obs; simpl. rewrite lookup_fmap.
  destruct (obs a !! k) as [[]|]; done.
Qed.

Lemma obs_float_subset_obs k m a :
  obs_float k (subset_obs m a) = Np.mask_select m <$> obs_float k a.
Proof.
  unfold obs_float, subset_obs; simpl. rewrite lookup_fmap.
  destruct (obs a !! k) as [[]|]; done.
Qed.

Lemma obs_int_set_obs_eq k l a : obs_int k (set_obs k (IntCol l) a) = Some l.
Proof. unfold obs_int, set_obs; simpl. by rewrite lookup_insert_eq. Qed.

Lemma obs_float_set_obs_eq k l a :
  obs_float k (set_obs k (FloatCol l) a) = Some l.
Proof. unfold obs_float, set_obs; simpl. by rewrite lookup_insert_eq. Qed.

Lemma obs_int_set_obs_ne k k' c a :
  k' ≠ k → obs_int k (set_obs k' c a) = obs_int k a.
Proof. intros. unfold obs_int, set_obs; simpl. by rewrite lookup_insert_ne. Qed.

Lemma obs_float_set_obs_ne k k' c a :
  k' ≠ k → obs_float k (set_obs k' c a) = obs_float k a.
Proof.
  intros. unfold obs_float, set_obs; simpl. by rewrite lookup_insert_ne.
Qed.

(** ** The steps, one by one *)

Lemma percent_mito_rows a :
  percent_mito a = map (mito_frac (var_names a)) (X a).
Proof.
  unfold percent_mito, Np.divide, Np.sum_axis1, mito_genes; simpl.
  induction (X a) as [|row M IH]; simpl; [done|]. by rewrite IH.
Qed.

Lemma filter_cells_X thr a :
  X (Scanpy.filter_cells thr a)
  = List.filter (λ row, bool_decide (thr <= Np.count_pos row)) (X a).
Proof.
  unfold Scanpy.filter_cells, Np.count_pos_axis1; simpl.
  rewrite map_map. apply mask_select_filter.
Qed.

Lemma filter_cells_mask args a :
  Scanpy.filter_cells (thr_min_genes args) a
  = subset_obs (mask_min_genes args a)
      (set_obs "n_genes" (IntCol (Np.count_pos_axis1 (X a))) a).
Proof.
  unfold Scanpy.filter_cells, mask_min_genes, Np.count_pos_axis1.
  by rewrite map_map.
Qed.

Lemma filter_genes_mask args a :
  Scanpy.filter_genes (thr_min_cells args) a
  = subset_var (mask_min_cells args a)
      (set_var "n_cells" (IntCol (Np.count_pos_axis0 (n_vars a) (X a))) a).
Proof.
  unfold Scanpy.filter_genes, mask_min_cells, Np.count_pos_axis0.
  by rewrite map_map.
Qed.

(** After line 54, [obs['n_genes']] holds the genes-detected of the cells
    that are left. *)
Lemma filter_cells_n_genes thr a :
  obs_int "n_genes" (Scanpy.filter_cells thr a)
  = Some (Np.count_pos_axis1 (X (Scanpy.filter_cells thr a))).
Proof.
  unfold Scanpy.filter_cells. rewrite obs_int_subset_obs, obs_int_set_obs_eq.
  simpl. unfold Np.count_pos_axis1. by rewrite mask_select_map.
Qed.

Lemma initial_cuts_n_genes args a :
  obs_int "n_genes" (annotate (initial_cuts args a))
  = Some (Np.count_pos_axis1 (X (Scanpy.filter_cells (thr_min_genes args) a))).
Proof.
  unfold annotate. rewrite !obs_int_set_obs_ne by done.
  unfold initial_cuts. rewrite <- filter_cells_n_genes. done.
Qed.

(** Line 74 never fails: the column it reads was written by line 54. *)
Lemma cut_n_genes_eq args a :
  cut_n_genes args (annotate (initial_cuts args a))
  = Some (subset_obs
            (mask_n_genes args (Scanpy.filter_cells (thr_min_genes args) a))
            (annotate (initial_cuts args a))).
Proof.
  unfold cut_n_genes. rewrite initial_cuts_n_genes. simpl.
  unfold mask_n_genes, Np.count_pos_axis1. by rewrite map_map.
Qed.

Lemma annotate_pm_aligned a : pm_aligned (annotate a).
Proof.
  unfold pm_aligned, annotate.
  rewrite obs_float_set_obs_ne by done.
  rewrite obs_float_set_obs_eq. simpl. by rewrite percent_mito_rows.
Qed.

Lemma subset_obs_pm_aligned m a : pm_aligned a → pm_aligned (subset_obs m a).
Proof.
  unfold pm_aligned. intros H. rewrite obs_float_subset_obs, H. simpl.
  by rewrite mask_select_map.
Qed.

(** Line 75 never fails either. *)
Lemma cut_pct_mito_eq args a :
  pm_aligned a →
  cut_pct_mito args a = Some (subset_obs (mask_pct_mito args a) a).
Proof.
  unfold cut_pct_mito, pm_aligned. intros ->. simpl.
  unfold mask_pct_mito. by rewrite map_map.
Qed.

(** ** The engine as a whole *)

Lemma after_n_genes_pm_aligned args a : pm_aligned (after_n_genes args a).
Proof. apply subset_obs_pm_aligned, annotate_pm_aligned. Qed.

(** The engine always returns, and what it returns is the state reached by
    the four masks. *)
Lemma filter_engine_eq args a :
  filter_engine args a = Some (after_pct_mito args a).
Proof.
  unfold filter_engine. rewrite cut_n_genes_eq. simpl.
  fold (after_n_genes args a).
  rewrite cut_pct_mito_eq by apply after_n_genes_pm_aligned. done.
Qed.

Lemma stages_eq args a :
  stages args a
  = [a; Scanpy.filter_cells (thr_min_genes args) a; initial_cuts args a;
     annotate (initial_cuts args a); after_n_genes args a;
     after_pct_mito args a].
Proof.
  unfold stages. fold (initial_cuts args a). rewrite cut_n_genes_eq.
  fold (after_n_genes args a).
  rewrite cut_pct_mito_eq by apply after_n_genes_pm_aligned. done.
Qed.

(** Shape and sign of the counts are kept by every step. *)

Lemma mask_select_length_eq {A B : Type} (m : list bool) (l : list A)
    (k : list B) :
  length l = length k →
  length (Np.mask_select m l) = length (Np.mask_select m k).
Proof.
  revert l k. induction m as [|b m IH]; intros [|x l] [|y k] H;
    simpl in *; try done.
  destruct b; simpl; auto.
Qed.

Lemma wf_subset_obs m a : wf a → wf (subset_obs m a).
Proof.
  intros [H1 H2]. split; simpl.
  - unfold n_obs; simpl. by apply mask_select_length_eq.
  - by apply mask_select_Forall.
Qed.

Lemma wf_subset_var m a : wf a → wf (subset_var m a).
Proof.
  intros [H1 H2]. split; simpl.
  - by rewrite length_map.
  - apply Forall_map. eapply Forall_impl; [exact H2|].
    intros row Hrow; simpl. unfold n_vars; simpl.
    by apply mask_select_length_eq.
Qed.

Lemma wf_set_obs k c a : wf a → wf (set_obs k c a).
Proof. done. Qed.

Lemma wf_set_var k c a : wf a → wf (set_var k c a).
Proof. done. Qed.

Lemma wf_filter_cells thr a : wf a → wf (Scanpy.filter_cells thr a).
Proof. intros. by apply wf_subset_obs, wf_set_obs. Qed.

Lemma wf_filter_genes thr a : wf a → wf (Scanpy.filter_genes thr a).
Proof. intros. by apply wf_subset_var, wf_set_var. Qed.

Lemma wf_initial_cuts args a : wf a → wf (initial_cuts args a).
Proof. intros. by apply wf_filter_genes, wf_filter_cells. Qed.

Lemma wf_after_n_genes args a : wf a → wf (after_n_genes args a).
Proof.
  intros. apply wf_subset_obs. unfold annotate.
  by apply wf_set_obs, wf_set_obs, wf_initial_cuts.
Qed.

Lemma wf_after_pct_mito args a : wf a → wf (after_pct_mito args a).
Proof. intros. by apply wf_subset_obs, wf_after_n_genes. Qed.

Lemma nonneg_subset_obs m a : nonneg_counts a → nonneg_counts (subset_obs m a).
Proof. apply mask_select_Forall. Qed.

Lemma nonneg_subset_var m a : nonneg_counts a → nonneg_counts (subset_var m a).
Proof.
  unfold nonneg_counts; simpl. intros H. apply Forall_map.
  eapply Forall_impl; [exact H|]. intros row Hrow; simpl.
  by apply mask_select_Forall.
Qed.

Lemma nonneg_initial_cuts args a :
  nonneg_counts a → nonneg_counts (initial_cuts args a).
Proof.
  intros H. unfold initial_cuts, Scanpy.filter_genes, Scanpy.filter_cells.
  apply nonneg_subset_var. unfold nonneg_counts; simpl.
  by apply mask_select_Forall.
Qed.

Lemma nonneg_after_pct_mito args a :
  nonneg_counts a → nonneg_counts (after_pct_mito args a).
Proof.
  intros H. unfold after_pct_mito, after_n_genes.
  do 2 apply nonneg_subset_obs. by apply nonneg_initial_cuts.
Qed.

(** ** Narrowing *)

Lemma narrows_intro a b :
  obs_names b `sublist_of` obs_names a →
  var_names b `sublist_of` var_names a →
  (length (X b) <= length (X a))%nat →
  narrows a b.
Proof.
  intros Ho Hv HX. unfold narrows, n_obs, n_vars.
  repeat split; auto using sublist_subseteq, sublist_length.
Qed.

#[local] Instance narrows_refl : Reflexive narrows.
Proof. intros a. by apply narrows_intro. Qed.

#[local] Instance narrows_trans : Transitive narrows.
Proof.
  intros a b c (Ho1 & Hv1 & _ & _ & _ & _ & HX1) (Ho2 & Hv2 & _ & _ & _ & _ & HX2).
  apply narrows_intro; [by etrans | by etrans | lia].
Qed.

Lemma narrows_subset_obs m a : narrows a (subset_obs m a).
Proof.
  apply narrows_intro; simpl;
    [apply mask_select_sublist | done | apply mask_select_length_le].
Qed.

Lemma narrows_subset_var m a : narrows a (subset_var m a).
Proof.
  apply narrows_intro; simpl;
    [done | apply mask_select_sublist | by rewrite length_map].
Qed.

Lemma narrows_filter_cells thr a : narrows a (Scanpy.filter_cells thr a).
Proof.
  unfold Scanpy.filter_cells.
  apply (narrows_subset_obs _ (set_obs "n_genes" _ a)).
Qed.

Lemma narrows_filter_genes thr a : narrows a (Scanpy.filter_genes thr a).
Proof.
  unfold Scanpy.filter_genes.
  apply (narrows_subset_var _ (set_var "n_cells" _ a)).
Qed.

Lemma narrows_annotate a : narrows a (annotate a).
Proof. by apply narrows_intro. Qed.

(** A relation that holds between neighbours of a list holds between any
    two of its elements taken in order, if it is a preorder. *)
Lemma chain_ordered {A : Type} (R : relation A)
    `{!Reflexive R, !Transitive R} (l : list A) :
  (∀ i x y, l !! i = Some x → l !! S i = Some y → R x y) →
  ∀ i j x y, (i <= j)%nat → l !! i = Some x → l !! j = Some y → R x y.
Proof.
  intros Hstep i j. induction j as [|j IH]; intros x y Hij Hi Hj.
  - assert (i = 0%nat) as -> by lia. by simplify_eq.
  - destruct (decide (i = S j)) as [->|Hne]; [by simplify_eq|].
    destruct (lookup_lt_is_Some_2 l j) as [z Hz].
    { apply lookup_lt_Some in Hj. lia. }
    etrans; [apply (IH x z); [lia|done..] | by eapply Hstep].
Qed.

Lemma stages_step_narrows args a i b c :
  stages args a !! i = Some b → stages args a !! S i = Some c → narrows b c.
Proof.
  rewrite stages_eq. intros Hb Hc.
  destruct i as [|[|[|[|[|i]]]]]; simpl in *; simplify_eq.
  - apply narrows_filter_cells.
  - apply narrows_filter_genes.
  - apply narrows_annotate.
  - apply narrows_subset_obs.
  - apply narrows_subset_obs.
Qed.

(** C4.  Every step of the filter engine only narrows the matrix: taking
    the input and the state after each of the five steps in order, the
    cells and the genes of a later state are a subsequence, hence a subset,
    of those of any earlier state, the numbers of cells, genes and matrix
    rows do not increase, and an identifier that is missing from one state
    is missing from every later one.  All five steps are reached, and the
    last state is the result of the engine. *)
Theorem steps_only_narrow (args : Args) (a : AnnData) :
  length (stages args a) = 6%nat
  ∧ last (stages args a) = filter_engine args a
  ∧ (∀ i j b c, (i <= j)%nat →
       stages args a !! i = Some b → stages args a !! j = Some c →
       narrows b c)
  ∧ (∀ i j b c x, (i <= j)%nat →
       stages args a !! i = Some b → stages args a !! j = Some c →
       (x ∉ obs_names b → x ∉ obs_names c)
       ∧ (x ∉ var_names b → x ∉ var_names c)).
Proof.
  assert (Hchain : ∀ i j b c, (i <= j)%nat →
    stages args a !! i = Some b → stages args a !! j = Some c → narrows b c).
  { apply chain_ordered; try apply _. apply stages_step_narrows. }
  split; [by rewrite stages_eq|].
  split; [by rewrite stages_eq, filter_engine_eq|].
  split; [exact Hchain|].
  intros i j b c x Hij Hb Hc.
  destruct (Hchain i j b c Hij Hb Hc) as (_ & _ & Ho & Hv & _).
  split; intros Hx Hin; apply Hx; [by apply Ho | by apply Hv].
Qed.

(** ** Selection by masks *)

Lemma all_true_repeat n : Forall (λ b, b = true) (repeat true n).
Proof. induction n; by constructor. Qed.

Lemma mask_select_repeat {A : Type} n (l : list A) :
  (length l <= n)%nat → Np.mask_select (repeat true n) l = l.
Proof.
  intros. apply mask_select_all; [apply all_true_repeat|].
  by rewrite repeat_length.
Qed.

Lemma rows_select_id n (M : list (list Z)) :
  Forall (λ row, length row = n) M →
  map (Np.mask_select (repeat true n)) M = M.
Proof.
  induction 1 as [|row M Hrow _ IH]; simpl; [done|].
  rewrite IH, mask_select_repeat; [done | lia].
Qed.

Lemma selects_rows m a b :
  wf a → length m = length (X a) →
  X b = Np.mask_select m (X a) →
  obs_names b = Np.mask_select m (obs_names a) →
  var_names b = var_names a →
  selects m (repeat true (n_vars a)) a b.
Proof.
  intros [H1 H2] Hm HX Ho Hv. unfold selects.
  rewrite HX, Ho, Hv.
  split_and!; [done | by rewrite repeat_length | done | |].
  - by rewrite mask_select_repeat.
  - rewrite rows_select_id; [done | by apply mask_select_Forall].
Qed.

Lemma selects_columns m a b :
  wf a → length m = n_vars a →
  X b = map (Np.mask_select m) (X a) →
  obs_names b = obs_names a →
  var_names b = Np.mask_select m (var_names a) →
  selects (repeat true (length (X a))) m a b.
Proof.
  intros [H1 H2] Hm HX Ho Hv. unfold selects.
  rewrite HX, Ho, Hv.
  split_and!; [by rewrite repeat_length | done | | done |].
  - rewrite mask_select_repeat; [done | unfold n_obs in H1; lia].
  - by rewrite mask_select_repeat.
Qed.

Lemma selects_same a b :
  wf a → X b = X a → obs_names b = obs_names a → var_names b = var_names a →
  selects (repeat true (length (X a))) (repeat true (n_vars a)) a b.
Proof.
  intros [H1 H2] HX Ho Hv. unfold selects.
  rewrite HX, Ho, Hv, !repeat_length.
  split_and!; try done.
  - rewrite mask_select_repeat; [done | unfold n_obs in H1; lia].
  - by rewrite mask_select_repeat.
  - rewrite mask_select_repeat, rows_select_id; done.
Qed.

Lemma selects_trans mc mg mc' mg' a b c :
  selects mc mg a b → selects mc' mg' b c →
  selects (mask_and mc mc') (mask_and mg mg') a c.
Proof.
  intros (L1 & L2 & Ho & Hv & HX) (L1' & L2' & Ho' & Hv' & HX').
  unfold selects. split_and!.
  - rewrite <- L1. apply (mask_and_length _ _ (X a)); [done|].
    by rewrite L1', HX, length_map.
  - rewrite <- L2. apply (mask_and_length _ _ (var_names a)); [done|].
    by rewrite L2', <- Hv.
  - by rewrite Ho', Ho, mask_select_and.
  - by rewrite Hv', Hv, mask_select_and.
  - rewrite HX', HX, mask_select_map, map_map, <- mask_select_and.
    apply map_ext. intros row. apply mask_select_and.
Qed.

Lemma stages_wf args a b : wf a → b ∈ stages args a → wf b.
Proof.
  intros Hwf. rewrite stages_eq. intros Hb.
  repeat (apply elem_of_cons in Hb as [->|Hb]); [done|..].
  - by apply wf_filter_cells.
  - by apply wf_initial_cuts.
  - by apply wf_set_obs, wf_set_obs, wf_initial_cuts.
  - by apply wf_after_n_genes.
  - by apply wf_after_pct_mito.
  - by apply elem_of_nil in Hb.
Qed.

Lemma stages_step_selects args a i b c :
  wf a →
  stages args a !! i = Some b → stages args a !! S i = Some c →
  ∃ mc mg, selects mc mg b c.
Proof.
  intros Hwf Hb Hc.
  assert (wf b) as Hwfb by (eapply stages_wf, list_elem_of_lookup_2; eauto).
  clear Hwf. rewrite stages_eq in Hb, Hc.
  destruct i as [|[|[|[|[|i]]]]]; simpl in *; simplify_eq; do 2 eexists.
  - rewrite filter_cells_mask. apply selects_rows; try done.
    unfold mask_min_genes. by rewrite length_map.
  - unfold initial_cuts. rewrite filter_genes_mask.
    apply selects_columns; try done.
    unfold mask_min_cells. by rewrite length_map, length_seq.
  - by apply selects_same.
  - apply selects_rows; try done.
    unfold mask_n_genes. simpl. by rewrite !length_map.
  - apply selects_rows; try done.
    unfold mask_pct_mito. by rewrite length_map.
Qed.

Lemma engine_selects args a :
  wf a → ∃ mc mg, selects mc mg a (after_pct_mito args a).
Proof.
  intros Hwf.
  pose proof (stages_eq args a) as E.
  set (a1 := Scanpy.filter_cells (thr_min_genes args) a) in *.
  set (a2 := initial_cuts args a) in *.
  set (a3 := annotate a2) in *.
  set (a4 := after_n_genes args a) in *.
  set (a5 := after_pct_mito args a) in *.
  destruct (stages_step_selects args a 0 a a1 Hwf)
    as (c1 & g1 & S1); [by rewrite E..|].
  destruct (stages_step_selects args a 1 a1 a2 Hwf)
    as (c2 & g2 & S2); [by rewrite E..|].
  destruct (stages_step_selects args a 2 a2 a3 Hwf)
    as (c3 & g3 & S3); [by rewrite E..|].
  destruct (stages_step_selects args a 3 a3 a4 Hwf)
    as (c4 & g4 & S4); [by rewrite E..|].
  destruct (stages_step_selects args a 4 a4 a5 Hwf)
    as (c5 & g5 & S5); [by rewrite E..|].
  do 2 eexists.
  exact (selects_trans _ _ _ _ _ _ _
           (selects_trans _ _ _ _ _ _ _
              (selects_trans _ _ _ _ _ _ _
                 (selects_trans _ _ _ _ _ _ _ S1 S2) S3) S4) S5).
Qed.

(** C10.  On a well-shaped input, every step of the engine selects rows
    and columns of the state before it by a pair of boolean masks, which
    keeps their relative order; so does the engine as a whole, and the
    writer emits the identifiers and the matrix of the final state as they
    are: the cell identifiers written are the input cell identifiers under
    the cell mask, the gene identifiers the input gene identifiers under
    the gene mask, both subsequences of the input ones, and the matrix
    written is the transpose of the input matrix under the two masks. *)
Theorem order_is_preserved (args : Args) (a : AnnData) :
  wf a →
  (∀ i b c, stages args a !! i = Some b → stages args a !! S i = Some c →
     ∃ mc mg, selects mc mg b c)
  ∧ ∃ mc mg a' out,
      filter_engine args a = Some a'
      ∧ initialFiltering args a = Some out
      ∧ selects mc mg a a'
      ∧ col_attrs out !! "CellID"
          = Some (StrCol (Np.mask_select mc (obs_names a)))
      ∧ row_attrs out !! "Gene"
          = Some (StrCol (Np.mask_select mg (var_names a)))
      ∧ Np.mask_select mc (obs_names a) `sublist_of` obs_names a
      ∧ Np.mask_select mg (var_names a) `sublist_of` var_names a
      ∧ matrix out
          = Np.transpose (length (Np.mask_select mg (var_names a)))
              (map (Np.mask_select mg) (Np.mask_select mc (X a))).
Proof.
  intros Hwf. split.
  { intros i b c. by apply stages_step_selects. }
  destruct (engine_selects args a Hwf) as (mc & mg & Hsel).
  exists mc, mg, (after_pct_mito args a), (loom_output (after_pct_mito args a)).
  pose proof Hsel as (_ & _ & Ho & Hv & HX).
  split_and!.
  - apply filter_engine_eq.
  - unfold initialFiltering. by rewrite filter_engine_eq.
  - done.
  - unfold loom_output; cbn [col_attrs]. by rewrite lookup_insert_eq, Ho.
  - unfold loom_output; cbn [row_attrs]. by rewrite lookup_singleton_eq, Hv.
  - apply mask_select_sublist.
  - apply mask_select_sublist.
  - unfold loom_output; cbn [matrix]. unfold n_vars. by rewrite Hv, HX.
Qed.

(** ** Sums, counts and quotients *)

Lemma sum_nonneg row : Forall (λ x, 0 <= x) row → 0 <= Np.sum row.
Proof. induction 1; simpl; lia. Qed.

Lemma sum_mask_le m row :
  Forall (λ x, 0 <= x) row →
  0 <= Np.sum (Np.mask_select m row) <= Np.sum row.
Proof.
  intros H. revert m. induction H as [|x row Hx Hrow IH]; intros [|b m];
    simpl; try lia.
  - pose proof (sum_nonneg row Hrow). lia.
  - specialize (IH m). destruct b; simpl; lia.
Qed.

Lemma count_pos_nonneg row : 0 <= Np.count_pos row.
Proof. unfold Np.count_pos. lia. Qed.

Lemma count_pos_cons x row :
  Np.count_pos (x :: row) = (if bool_decide (0 < x) then 1 else 0) + Np.count_pos row.
Proof.
  unfold Np.count_pos. rewrite filter_cons.
  case_bool_decide; case_decide; simpl; try lia.
Qed.

Lemma count_pos_mask_le m row :
  Np.count_pos (Np.mask_select m row) <= Np.count_pos row.
Proof.
  revert m. induction row as [|x row IH]; intros [|b m]; simpl;
    try apply count_pos_nonneg; try done.
  specialize (IH m). destruct b; rewrite !count_pos_cons;
    case_bool_decide; lia.
Qed.

Lemma count_pos_nonzero row :
  Forall (λ x, 0 <= x) row → Np.count_pos row = Spec.count_nonzero row.
Proof.
  induction 1 as [|x row Hx _ IH]; [done|].
  rewrite count_pos_cons, IH. unfold Spec.count_nonzero; simpl.
  case_bool_decide; destruct (Z.eqb_spec x 0); simpl; lia.
Qed.

Lemma fdiv_nan_iff a b : fdiv a b = FNaN ↔ a = 0 ∧ b = 0.
Proof.
  unfold fdiv. destruct (Z.eqb_spec b 0), (Z.eqb_spec a 0);
    try destruct (0 <? a); split; intros; try done; lia.
Qed.

Lemma flt_nan_l t : flt FNaN t = false.
Proof. by destruct t. Qed.

(** A quotient of a part by a non-zero whole lies between 0 and 1. *)
Lemma fdiv_unit a b :
  0 <= a <= b → b ≠ 0 →
  ∃ q, fdiv a b = FFin q ∧ (0 <= q)%Q ∧ (q <= 1)%Q.
Proof.
  intros Hab Hb. unfold fdiv. destruct (Z.eqb_spec b 0); [done|].
  eexists; split; [done|].
  destruct b as [|p|p]; try lia.
  assert (E : (Qred (inject_Z a / inject_Z (Z.pos p)) == a # p)%Q).
  { rewrite Qred_correct. symmetry. apply Qmake_Qdiv. }
  rewrite E. unfold Qle; simpl. lia.
Qed.

(** A cell that passes the mito cut has a proper fraction. *)
Lemma mito_frac_unit genes row t :
  Forall (λ x, 0 <= x) row →
  flt (mito_frac genes row) t = true →
  Np.sum row ≠ 0
  ∧ ∃ q, mito_frac genes row = FFin q ∧ (0 <= q)%Q ∧ (q <= 1)%Q.
Proof.
  intros Hrow Hlt. unfold mito_frac in *.
  pose proof (sum_mask_le (map is_mito genes) row Hrow) as Hle.
  assert (Np.sum row ≠ 0) as Hne.
  { intros E0. rewrite (proj2 (fdiv_nan_iff _ _)) in Hlt by lia.
    by rewrite flt_nan_l in Hlt. }
  split; [done|]. by apply fdiv_unit.
Qed.

Lemma mito_frac_zero_total genes row :
  Forall (λ x, 0 <= x) row → Np.sum row = 0 → mito_frac genes row = FNaN.
Proof.
  intros Hrow E0. unfold mito_frac. apply fdiv_nan_iff.
  pose proof (sum_mask_le (map is_mito genes) row Hrow). lia.
Qed.

Lemma mito_frac_spec genes row :
  mito_frac genes row = fdiv (Spec.mito_counts genes row) (Np.sum row).
Proof. unfold mito_frac, Spec.mito_counts. by rewrite mask_select_restrict. Qed.

(** The rows that the engine returns pass the test of line 75. *)
Lemma after_pct_mito_rows args a :
  Forall (λ row, flt (mito_frac (var_names (after_pct_mito args a)) row)
                   (thr_pct_mito args) = true)
         (X (after_pct_mito args a)).
Proof.
  unfold after_pct_mito, mask_pct_mito; simpl.
  apply (mask_select_test
    (λ row, flt (mito_frac (var_names (initial_cuts args a)) row)
              (thr_pct_mito args))).
Qed.

Lemma after_pct_mito_pm_aligned args a : pm_aligned (after_pct_mito args a).
Proof. apply subset_obs_pm_aligned, after_n_genes_pm_aligned. Qed.


(** ** Transposition *)

Lemma map_seq_lookup {A B : Type} (d : A) (f : A → B) (l : list A) :
  map (λ i, f (default d (l !! i))) (seq 0 (length l)) = map f l.
Proof.
  induction l as [|x l IH]; simpl; [done|].
  f_equal. rewrite <- seq_shift, map_map. exact IH.
Qed.

Lemma column_lookup j M i row :
  M !! i = Some row → Np.column j M !! i = Some (default 0 (row !! j)).
Proof.
  intros H. unfold Np.column.
  change (map ?f M) with (f <$> M). by rewrite list_lookup_fmap, H.
Qed.

Lemma transpose_lookup n M j :
  (j < n)%nat → Np.transpose n M !! j = Some (Np.column j M).
Proof.
  intros H. unfold Np.transpose.
  change (map ?f (seq 0 n)) with (f <$> seq 0 n).
  rewrite list_lookup_fmap, lookup_seq_lt by done. done.
Qed.

(** Column [i] of the transposed matrix is row [i] of the matrix. *)
Lemma column_transpose n M i row :
  M !! i = Some row → length row = n →
  Np.column i (Np.transpose n M) = row.
Proof.
  intros Hi <-. unfold Np.transpose, Np.column at 1. rewrite map_map.
  transitivity (map (λ j, id (default 0 (row !! j))) (seq 0 (length row))).
  - apply map_ext. intros j. by rewrite (column_lookup j M i row).
  - rewrite map_seq_lookup. apply map_id.
Qed.

Lemma axis0_transpose (g : list Z → Z) n M :
  Forall (λ row, length row = n) M →
  map (λ i, g (Np.column i (Np.transpose n M))) (seq 0 (length M)) = map g M.
Proof.
  intros HM. rewrite <- (map_seq_lookup [] g M).
  apply map_ext_in. intros i Hi%in_seq.
  destruct (lookup_lt_is_Some_2 M i) as [row Hrow]; [lia|].
  rewrite Hrow; simpl. f_equal.
  apply column_transpose; [done|]. exact (Forall_lookup_1 _ _ _ _ HM Hrow).
Qed.

Lemma loom_nUMI a :
  wf a →
  col_attrs (loom_output a) !! "nUMI" = Some (IntCol (Np.sum_axis1 (X a))).
Proof.
  intros [_ H]. unfold loom_output; cbn [col_attrs].
  rewrite !lookup_insert_ne by done. rewrite lookup_singleton_eq.
  unfold Np.sum_axis0. by rewrite (axis0_transpose Np.sum).
Qed.

Lemma loom_nGene a :
  wf a →
  col_attrs (loom_output a) !! "nGene"
  = Some (IntCol (Np.count_pos_axis1 (X a))).
Proof.
  intros [_ H]. unfold loom_output; cbn [col_attrs].
  rewrite lookup_insert_ne by done. rewrite lookup_insert_eq.
  unfold Np.count_pos_axis0. by rewrite (axis0_transpose Np.count_pos).
Qed.

Lemma count_pos_axis1_nonzero M :
  Forall (Forall (λ x, 0 <= x)) M →
  Np.count_pos_axis1 M = map Spec.count_nonzero M.
Proof.
  intros H. unfold Np.count_pos_axis1. apply map_ext_in.
  intros row Hrow. apply count_pos_nonzero.
  eapply Forall_forall in H; [exact H|]. by apply list_elem_of_In.
Qed.

(** C8.  With non-negative counts on a well-shaped input: after the
    initial cuts a cell with total counts zero gets the mito fraction
    [nan], which line 63 records in [obs]; [nan] is below no threshold, so
    the mask of line 75 is false at every cell with total counts zero that
    line 74 left; hence no row of the matrix the engine returns sums to
    zero, and no entry of the total counts that are written is zero. *)
Theorem zero_count_cells_are_removed (args : Args) (a : AnnData) :
  wf a → nonneg_counts a →
  let a2 := initial_cuts args a in
  let a4 := after_n_genes args a in
  obs_float "percent_mito" (annotate a2) = Some (percent_mito a2)
  ∧ (∀ i row, X a2 !! i = Some row → Np.sum row = 0 →
       percent_mito a2 !! i = Some FNaN)
  ∧ (∀ t, flt FNaN t = false)
  ∧ cut_n_genes args (annotate a2) = Some a4
  ∧ (∀ i row, X a4 !! i = Some row → Np.sum row = 0 →
       mask_pct_mito args a4 !! i = Some false)
  ∧ ∃ a' out numi,
      cut_pct_mito args a4 = Some a'
      ∧ a' = subset_obs (mask_pct_mito args a4) a4
      ∧ filter_engine args a = Some a'
      ∧ initialFiltering args a = Some out
      ∧ Forall (λ row, Np.sum row ≠ 0) (X a')
      ∧ col_attrs out !! "nUMI" = Some (IntCol numi)
      ∧ Forall (λ n, n ≠ 0) numi.
Proof.
  intros Hwf Hnn a2 a4.
  assert (nonneg_counts a2) as Hnn2 by by apply nonneg_initial_cuts.
  assert (nonneg_counts a4) as Hnn4.
  { unfold a4, after_n_genes. by apply nonneg_subset_obs. }
  assert (Hfinal : Forall (λ row, Np.sum row ≠ 0) (X (after_pct_mito args a))).
  { pose proof (after_pct_mito_rows args a) as Hrows.
    pose proof (nonneg_after_pct_mito args a Hnn) as Hnn'.
    eapply Forall_impl;
      [apply Forall_and; split; [exact Hrows | exact Hnn']|].
    intros row [Hlt Hrow]; simpl.
    by destruct (mito_frac_unit _ _ _ Hrow Hlt). }
  split_and!.
  - rewrite percent_mito_rows. apply annotate_pm_aligned.
  - intros i row Hi E0. rewrite percent_mito_rows.
    change (map ?f ?l) with (f <$> l). rewrite list_lookup_fmap, Hi; simpl.
    f_equal. apply mito_frac_zero_total; [|done].
    exact (Forall_lookup_1 _ _ _ _ Hnn2 Hi).
  - apply flt_nan_l.
  - apply cut_n_genes_eq.
  - intros i row Hi E0. unfold mask_pct_mito.
    change (map ?f ?l) with (f <$> l). rewrite list_lookup_fmap, Hi; simpl.
    rewrite mito_frac_zero_total; [by rewrite flt_nan_l | | done].
    exact (Forall_lookup_1 _ _ _ _ Hnn4 Hi).
  - exists (after_pct_mito args a), (loom_output (after_pct_mito args a)),
      (Np.sum_axis1 (X (after_pct_mito args a))).
    split_and!.
    + apply cut_pct_mito_eq, after_n_genes_pm_aligned.
    + done.
    + apply filter_engine_eq.
    + unfold initialFiltering. by rewrite filter_engine_eq.
    + exact Hfinal.
    + by apply loom_nUMI, wf_after_pct_mito.
    + unfold Np.sum_axis1. by apply Forall_map.
Qed.

(** ** Thresholds of zero *)

Lemma mask_select_all_map {A B : Type} (p : A → bool) (l : list A)
    (k : list B) :
  Forall (λ x, p x = true) l → (length k <= length l)%nat →
  Np.mask_select (map p l) k = k.
Proof.
  intros H Hlen. apply mask_select_all; [by apply all_true_map|].
  by rewrite length_map.
Qed.

(** C6.  On a well-shaped input, the cell cut of line 54 with threshold 0
    keeps every cell, and the gene cut of line 55 with threshold 0 keeps
    every gene: matrix, cell identifiers and gene identifiers are
    unchanged, and every entry of the mask is true. *)
Theorem zero_threshold_keeps_all (a : AnnData) :
  wf a →
  (X (Scanpy.filter_cells 0 a) = X a
   ∧ obs_names (Scanpy.filter_cells 0 a) = obs_names a
   ∧ var_names (Scanpy.filter_cells 0 a) = var_names a
   ∧ ∀ args, thr_min_genes args = 0 →
       Forall (λ b, b = true) (mask_min_genes args a))
  ∧ (X (Scanpy.filter_genes 0 a) = X a
     ∧ obs_names (Scanpy.filter_genes 0 a) = obs_names a
     ∧ var_names (Scanpy.filter_genes 0 a) = var_names a
     ∧ ∀ args, thr_min_cells args = 0 →
         Forall (λ b, b = true) (mask_min_cells args a)).
Proof.
  intros [HX Hrows].
  assert (Hc : ∀ (M : list (list Z)),
    Forall (λ n, bool_decide (0 <= n) = true) (Np.count_pos_axis1 M)).
  { intros M. apply Forall_map, Forall_forall. intros row _; simpl.
    apply bool_decide_eq_true, count_pos_nonneg. }
  assert (Hg : ∀ n (M : list (list Z)),
    Forall (λ n, bool_decide (0 <= n) = true) (Np.count_pos_axis0 n M)).
  { intros n M. apply Forall_map, Forall_forall. intros j _; simpl.
    apply bool_decide_eq_true, count_pos_nonneg. }
  split; split_and!.
  - unfold Scanpy.filter_cells; simpl. apply mask_select_all_map; [apply Hc|].
    unfold Np.count_pos_axis1. by rewrite length_map.
  - unfold Scanpy.filter_cells; simpl. apply mask_select_all_map; [apply Hc|].
    unfold Np.count_pos_axis1, n_obs in *. rewrite length_map. lia.
  - done.
  - intros args E. unfold mask_min_genes. rewrite E.
    apply Forall_map, Forall_forall. intros row _; simpl.
    apply bool_decide_eq_true, count_pos_nonneg.
  - unfold Scanpy.filter_genes; simpl.
    transitivity (map id (X a)); [|apply map_id]. apply map_ext_in.
    intros row Hrow. apply mask_select_all_map; [apply Hg|].
    unfold Np.count_pos_axis0. rewrite length_map, length_seq.
    eapply Forall_forall in Hrows; [|by apply list_elem_of_In].
    unfold id, n_vars in *. simpl in Hrows. lia.
  - done.
  - unfold Scanpy.filter_genes; simpl. apply mask_select_all_map; [apply Hg|].
    unfold Np.count_pos_axis0, n_vars. by rewrite length_map, length_seq.
  - intros args E. unfold mask_min_cells. rewrite E.
    apply Forall_map, Forall_forall. intros j _; simpl.
    apply bool_decide_eq_true, count_pos_nonneg.
Qed.

(** ** Mitochondrial genes *)

Lemma is_mito_prefix g : is_mito g = true ↔ ∃ s, g = "MT-" +:+ s.
Proof.
  unfold is_mito. split.
  - destruct g as [|c1 [|c2 [|c3 s]]]; cbn [String.prefix];
      try discriminate;
      repeat (destruct (Ascii.ascii_dec _ _); try discriminate).
    intros _. subst. by exists s.
  - intros [s ->]. simpl. by destruct s.
Qed.

Lemma mask_select_insert_false {A : Type} (m : list bool) (l : list A) j v :
  m !! j = Some false →
  Np.mask_select m (<[j:=v]> l) = Np.mask_select m l.
Proof.
  revert l j. induction m as [|b m IH]; intros [|x l] [|j] Hj;
    simpl in *; try done.
  - by simplify_eq.
  - destruct b; by rewrite IH.
Qed.

Lemma sum_mask_none (m : list bool) (l : list Z) :
  Forall (λ b, b = false) m → Np.sum (Np.mask_select m l) = 0.
Proof.
  intros Hm. revert l.
  induction Hm as [|b m -> _ IHm]; intros [|y l]; simpl; auto.
Qed.

(** When gene [j] is the only one taken, the restricted sum of a row is
    its entry [j]. *)
Lemma sum_mask_single (m : list bool) (row : list Z) j :
  m !! j = Some true →
  (∀ j', m !! j' = Some true → j' = j) →
  Np.sum (Np.mask_select m row) = default 0 (row !! j).
Proof.
  revert row j. induction m as [|b m IH]; intros row j Hj Huniq; [done|].
  destruct row as [|x row]; [done|].
  destruct j as [|j]; simpl in *.
  - simplify_eq.
    change (x + Np.sum (Np.mask_select m row) = x).
    rewrite sum_mask_none; [lia|].
    apply Forall_lookup. intros i [] Hi; [|done].
    by specialize (Huniq (S i) Hi).
  - destruct b; [by specialize (Huniq 0%nat eq_refl)|].
    apply IH; [done|]. intros j' Hj'.
    specialize (Huniq (S j') Hj'). lia.
Qed.

(** C9, as the specification states it, fails: the counts of a gene
    whose identifier starts with "mt-" are part of the cell's total, by
    which the mitochondrial sum is divided.  With 10 counts of "MT-CO1",
    the cell has the fraction 10/20 when "mt-nd1" has 10 counts and 10/40
    when it has 30; with the threshold at 3/8 line 75 removes the cell in
    the first case and keeps it in the second.  (Every number here has an
    exact binary representation.) *)
Lemma lowercase_gene_changes_fraction :
  is_mito "mt-nd1" = false
  ∧ var_names (initial_cuts lowercase_args (lowercase_case 10))
    = ["MT-CO1"; "mt-nd1"]
  ∧ var_names (initial_cuts lowercase_args (lowercase_case 30))
    = ["MT-CO1"; "mt-nd1"]
  ∧ percent_mito (initial_cuts lowercase_args (lowercase_case 10))
    = [FFin (1 # 2)]
  ∧ percent_mito (initial_cuts lowercase_args (lowercase_case 30))
    = [FFin (1 # 4)]
  ∧ percent_mito (initial_cuts lowercase_args (lowercase_case 10))
    ≠ percent_mito (initial_cuts lowercase_args (lowercase_case 30))
  ∧ (∃ a', filter_engine lowercase_args (lowercase_case 10) = Some a'
           ∧ obs_names a' = [] ∧ X a' = [])
  ∧ (∃ a', filter_engine lowercase_args (lowercase_case 30) = Some a'
           ∧ obs_names a' = ["c1"] ∧ X a' = [[10; 30]]).
Proof.
  split; [reflexivity|].
  split; [by vm_compute|]. split; [by vm_compute|].
  assert (E1 : percent_mito (initial_cuts lowercase_args (lowercase_case 10))
               = [FFin (1 # 2)]) by by vm_compute.
  assert (E2 : percent_mito (initial_cuts lowercase_args (lowercase_case 30))
               = [FFin (1 # 4)]) by by vm_compute.
  split; [exact E1|]. split; [exact E2|].
  split; [rewrite E1, E2; discriminate|].
  split.
  - exists (after_pct_mito lowercase_args (lowercase_case 10)).
    split; [apply filter_engine_eq|]. split; by vm_compute.
  - exists (after_pct_mito lowercase_args (lowercase_case 30)).
    split; [apply filter_engine_eq|]. split; by vm_compute.
Qed.

(** ** The scenario of the specification *)

(** If the test of the second mask fails on the first element, the two
    masks together drop the first element. *)
Lemma first_dropped {A : Type} (f : A → bool) (m4 : list bool) r1 rest :
  f r1 = false →
  ∃ m, ∀ (B : Type) (L : list B),
    Np.mask_select (map f (Np.mask_select m4 (r1 :: rest)))
      (Np.mask_select m4 L)
    = Np.mask_select (false :: m) L.
Proof.
  intros Hf. destruct m4 as [|[] m4].
  - exists []. intros B [|x L]; done.
  - exists (mask_and m4 (map f (Np.mask_select m4 rest))).
    intros B [|x L]; simpl; [done|].
    rewrite Hf. apply mask_select_and.
  - exists (mask_and m4 (map f (Np.mask_select m4 rest))).
    intros B [|x L]; simpl; [by rewrite mask_select_nil_r|].
    apply mask_select_and.
Qed.

Lemma first_cell_cut args a r1 rest :
  X (initial_cuts args a) = r1 :: rest →
  flt (mito_frac (var_names (initial_cuts args a)) r1) (thr_pct_mito args)
    = false →
  ∃ m,
    X (after_pct_mito args a)
      = Np.mask_select (false :: m) (X (initial_cuts args a))
    ∧ obs_names (after_pct_mito args a)
      = Np.mask_select (false :: m) (obs_names (initial_cuts args a)).
Proof.
  intros HX Hf.
  destruct (first_dropped
    (λ row, flt (mito_frac (var_names (initial_cuts args a)) row)
              (thr_pct_mito args))
    (mask_n_genes args (Scanpy.filter_cells (thr_min_genes args) a))
    r1 rest Hf) as [m Hm].
  exists m. rewrite <- HX in Hm. split; apply Hm.
Qed.

(** C5.  Take any input and thresholds with [thr_pct_mito] = 0.25 such
    that, after the initial cuts, "MT-CO1" is a gene, the only one whose
    identifier starts with "MT-", with counts 10, 0, 0, 0, 0 over the
    cells, and the cells have total counts 20, 5, 5, 5, 5.  Then the mito
    fractions computed on lines 61-62 are 1/2 for the first cell and 0 for
    the others; 1/2 is not below the threshold; and the engine returns a
    state from which the first cell is gone (identifier and row). *)
Theorem scenario_mito_cut (args : Args) (a : AnnData) (j : nat) :
  let a2 := initial_cuts args a in
  thr_pct_mito args = FFin (1 # 4) →
  var_names a2 !! j = Some "MT-CO1" →
  (∀ j' g, var_names a2 !! j' = Some g → is_mito g = true → j' = j) →
  Np.column j (X a2) = [10; 0; 0; 0; 0] →
  Np.sum_axis1 (X a2) = [20; 5; 5; 5; 5] →
  percent_mito a2 = [FFin (1 # 2); FFin 0; FFin 0; FFin 0; FFin 0]
  ∧ flt (FFin (1 # 2)) (thr_pct_mito args) = false
  ∧ ∃ a' m,
      filter_engine args a = Some a'
      ∧ obs_names a' = Np.mask_select (false :: m) (obs_names a2)
      ∧ X a' = Np.mask_select (false :: m) (X a2).
Proof.
  intros a2 Hthr Hj Huniq Hcol Hsum.
  assert (Hfrac : ∀ row,
    mito_frac (var_names a2) row = fdiv (default 0 (row !! j)) (Np.sum row)).
  { intros row. unfold mito_frac. rewrite (sum_mask_single _ row j); [done| |].
    - change (map ?f ?l) with (f <$> l). by rewrite list_lookup_fmap, Hj.
    - intros j'. change (map ?f ?l) with (f <$> l).
      rewrite list_lookup_fmap.
      destruct (var_names a2 !! j') as [g|] eqn:E; simpl; [|done].
      intros [= Hg]. by apply (Huniq j' g). }
  assert (Hrows : ∃ r1 rest, X a2 = r1 :: rest
            ∧ mito_frac (var_names a2) r1 = FFin (1 # 2)
            ∧ percent_mito a2
              = [FFin (1 # 2); FFin 0; FFin 0; FFin 0; FFin 0]).
  { rewrite percent_mito_rows. revert Hcol Hsum.
    unfold Np.column, Np.sum_axis1.
    destruct (X a2) as [|r1 [|r2 [|r3 [|r4 [|r5 [|r6 M]]]]]]; try done.
    simpl. intros [= E1 E2 E3 E4 E5] [= S1 S2 S3 S4 S5].
    exists r1, [r2; r3; r4; r5].
    rewrite !Hfrac, E1, E2, E3, E4, E5, S1, S2, S3, S4, S5. done. }
  destruct Hrows as (r1 & rest & HX & Hr1 & Hpm).
  split; [exact Hpm|]. split; [by rewrite Hthr|].
  destruct (first_cell_cut args a r1 rest HX) as (m & Hm1 & Hm2).
  { fold a2. by rewrite Hr1, Hthr. }
  exists (after_pct_mito args a), m.
  split; [apply filter_engine_eq|]. by split.
Qed.

(** ** Running the engine on its own output *)

Lemma after_pct_mito_n_genes args a :
  Forall (λ row, Np.count_pos row < thr_n_genes args)
         (X (after_pct_mito args a)).
Proof.
  unfold after_pct_mito. cbn [X subset_obs]. apply mask_select_Forall.
  unfold after_n_genes. cbn [X subset_obs annotate set_obs].
  unfold initial_cuts, Scanpy.filter_genes. cbn [X subset_var set_var].
  unfold mask_n_genes. rewrite mask_select_map_test.
  apply Forall_map, Forall_forall. intros row Hrow; simpl.
  apply list_elem_of_In, filter_In in Hrow as [_ Hp].
  apply bool_decide_eq_true in Hp.
  eapply Z.le_lt_trans; [apply count_pos_mask_le | exact Hp].
Qed.

Lemma full_length_all_true {A : Type} (m : list bool) (l : list A) :
  length m = length l → length (Np.mask_select m l) = length l →
  Forall (λ b, b = true) m.
Proof.
  revert l. induction m as [|b m IH]; intros [|x l] Hm Hl; simpl in *;
    try done.
  destruct b.
  - constructor; [done|]. apply (IH l); simpl in *; lia.
  - pose proof (mask_select_length_le m l). lia.
Qed.

Lemma subset_obs_all m a :
  Forall (λ b, b = true) m →
  (length (X a) <= length m)%nat → (n_obs a <= length m)%nat →
  same_data (subset_obs m a) a.
Proof.
  intros Hm H1 H2. unfold same_data; simpl.
  by rewrite !mask_select_all.
Qed.

Lemma subset_var_all m a :
  Forall (λ b, b = true) m → wf a → (n_vars a <= length m)%nat →
  same_data (subset_var m a) a.
Proof.
  intros Hm [_ Hrows] Hn. unfold same_data; simpl.
  rewrite mask_select_all by done. split_and!; try done.
  transitivity (map id (X a)); [|apply map_id]. apply map_ext_in.
  intros row Hrow. apply mask_select_all; [done|].
  eapply Forall_forall in Hrows; [|by apply list_elem_of_In].
  simpl in Hrows. unfold id. lia.
Qed.

Lemma same_data_wf a b : same_data a b → wf b → wf a.
Proof. intros (HX & Ho & Hv) Hwf. unfold wf, n_obs, n_vars. by rewrite HX, Ho, Hv. Qed.

Lemma same_data_trans a b c : same_data a b → same_data b c → same_data a c.
Proof.
  intros (HX & Ho & Hv) (HX' & Ho' & Hv').
  unfold same_data. by rewrite HX, Ho, Hv.
Qed.

Lemma filter_cells_all args b :
  wf b →
  Forall (λ row, thr_min_genes args <= Np.count_pos row) (X b) →
  same_data (Scanpy.filter_cells (thr_min_genes args) b) b.
Proof.
  intros [HX _] H1. rewrite filter_cells_mask.
  apply (subset_obs_all _ (set_obs "n_genes" _ b)).
  - unfold mask_min_genes. apply Forall_map.
    eapply Forall_impl; [exact H1|]. intros row Hrow; simpl.
    by apply bool_decide_eq_true.
  - unfold mask_min_genes. by rewrite length_map.
  - unfold mask_min_genes, n_obs in *. rewrite length_map. simpl. lia.
Qed.

Lemma filter_genes_all args b :
  wf b →
  Forall (λ n, thr_min_cells args <= n)
         (Np.count_pos_axis0 (n_vars b) (X b)) →
  same_data (Scanpy.filter_genes (thr_min_cells args) b) b.
Proof.
  intros Hwf H2. rewrite filter_genes_mask.
  apply (subset_var_all _ (set_var "n_cells" _ b)).
  - unfold mask_min_cells. unfold Np.count_pos_axis0 in H2.
    pose proof (proj1 (Forall_map _ _ _) H2) as H2'. apply Forall_map.
    eapply Forall_impl; [exact H2'|]. intros j Hj; simpl in *.
    by apply bool_decide_eq_true.
  - done.
  - unfold mask_min_cells. rewrite length_map, length_seq. done.
Qed.

(** A state that meets the two lower thresholds and the two upper ones is
    left as it is by the engine. *)
Lemma rerun_same args b :
  wf b →
  Forall (λ row, thr_min_genes args <= Np.count_pos row) (X b) →
  Forall (λ n, thr_min_cells args <= n)
         (Np.count_pos_axis0 (n_vars b) (X b)) →
  Forall (λ row, Np.count_pos row < thr_n_genes args) (X b) →
  Forall (λ row, flt (mito_frac (var_names b) row) (thr_pct_mito args) = true)
         (X b) →
  same_data (after_pct_mito args b) b.
Proof.
  intros Hwf H1 H2 I1 I2.
  pose proof (filter_cells_all args b Hwf H1) as S1.
  set (a1 := Scanpy.filter_cells (thr_min_genes args) b) in *.
  assert (wf a1) as Hwf1 by (eapply same_data_wf; eauto).
  assert (same_data (initial_cuts args b) a1) as S2.
  { apply filter_genes_all; [done|].
    destruct S1 as (HX & _ & Hv). unfold n_vars. by rewrite HX, Hv. }
  pose proof (same_data_trans _ _ _ S2 S1) as S12.
  assert (same_data (after_n_genes args b) b) as S4.
  { eapply same_data_trans; [|exact S12].
    apply (subset_obs_all _ (annotate (initial_cuts args b))).
    - fold a1. unfold mask_n_genes. apply Forall_map.
      destruct S1 as (-> & _ & _).
      eapply Forall_impl; [exact I1|]. intros row Hrow; simpl.
      by apply bool_decide_eq_true.
    - fold a1. unfold mask_n_genes. rewrite length_map.
      destruct S2 as (HX & _ & _). cbn [X annotate set_obs]. by rewrite HX.
    - fold a1. unfold mask_n_genes. rewrite length_map.
      destruct S2 as (_ & Ho & _). destruct Hwf1 as [HX1 _].
      unfold n_obs in *. cbn [obs_names annotate set_obs]. rewrite Ho. lia. }
  eapply same_data_trans; [|exact S4].
  apply subset_obs_all.
  - unfold mask_pct_mito. apply Forall_map.
    destruct S4 as (-> & _ & ->). exact I2.
  - unfold mask_pct_mito. by rewrite length_map.
  - unfold mask_pct_mito. rewrite length_map.
    destruct S4 as (HX & Ho & _). destruct Hwf as [HXb _].
    unfold n_obs in *. rewrite HX, Ho. lia.
Qed.

Lemma rerun_same_inv args b :
  wf b → same_data (after_pct_mito args b) b →
  Forall (λ row, thr_min_genes args <= Np.count_pos row) (X b)
  ∧ Forall (λ n, thr_min_cells args <= n)
           (Np.count_pos_axis0 (n_vars b) (X b)).
Proof.
  intros Hwf (HX & Ho & Hv).
  assert (H1 : Forall (λ row, thr_min_genes args <= Np.count_pos row) (X b)).
  { assert (E : ∃ m4 m5, obs_names (after_pct_mito args b)
        = Np.mask_select m5 (Np.mask_select m4
            (Np.mask_select (mask_min_genes args b) (obs_names b)))).
    { do 2 eexists. unfold after_pct_mito, after_n_genes.
      cbn [obs_names subset_obs annotate set_obs].
      unfold initial_cuts, Scanpy.filter_genes.
      cbn [obs_names subset_var set_var].
      rewrite filter_cells_mask. reflexivity. }
    destruct E as (m4 & m5 & E). rewrite Ho in E.
    assert (Hall : Forall (λ x, x = true) (mask_min_genes args b)).
    { apply (full_length_all_true _ (obs_names b)).
      - unfold mask_min_genes. rewrite length_map. apply Hwf.
      - apply Nat.le_antisymm; [apply mask_select_length_le|].
        rewrite E at 1.
        etrans; [apply mask_select_length_le|].
        apply mask_select_length_le. }
    unfold mask_min_genes in Hall.
    pose proof (proj1 (Forall_map _ _ _) Hall) as Hall'.
    eapply Forall_impl; [exact Hall'|]. intros row Hrow; simpl in *.
    by apply bool_decide_eq_true in Hrow. }
  split; [exact H1|].
  pose proof (filter_cells_all args b Hwf H1) as (HX1 & Ho1 & Hv1).
  set (a1 := Scanpy.filter_cells (thr_min_genes args) b) in *.
  assert (E : var_names (after_pct_mito args b)
              = Np.mask_select (mask_min_cells args a1) (var_names a1)).
  { unfold after_pct_mito, after_n_genes.
    cbn [var_names subset_obs annotate set_obs].
    unfold initial_cuts. fold a1. by rewrite filter_genes_mask. }
  rewrite Hv in E.
  assert (Hall : Forall (λ x, x = true) (mask_min_cells args a1)).
  { apply (full_length_all_true _ (var_names a1)).
    - unfold mask_min_cells. by rewrite length_map, length_seq.
    - by rewrite <- E, Hv1. }
  unfold mask_min_cells in Hall. unfold Np.count_pos_axis0.
  pose proof (proj1 (Forall_map _ _ _) Hall) as Hall'.
  apply Forall_map. unfold n_vars in *. rewrite HX1, Hv1 in Hall'.
  eapply Forall_impl; [exact Hall'|]. intros j Hj; simpl in *.
  by apply bool_decide_eq_true in Hj.
Qed.



(** When the second run does cut a gene, the mito fractions are taken
    anew on fewer genes, and the cut of line 75 can remove a cell that
    passed it the first time.  Here the first run removes the second
    cell and keeps all three genes; on its output the third gene is
    detected in one cell only, the second run cuts it, the fraction of
    the first cell goes from 2/5 to 2/3, and with the threshold at 1/2
    the second run removes that cell. *)
Lemma rerun_mito_cut_removes_cell :
  wf rerun_case ∧ nonneg_counts rerun_case
  ∧ ∃ a' a'',
      filter_engine rerun_args rerun_case = Some a'
      ∧ filter_engine rerun_args a' = Some a''
      ∧ X a' = [[2; 1; 2]; [1; 3; 0]]
      ∧ obs_names a' = ["c1"; "c3"]
      ∧ var_names a' = ["MT-A"; "G1"; "G2"]
      ∧ obs_float "percent_mito" a' = Some [FFin (2 # 5); FFin (1 # 4)]
      ∧ percent_mito (initial_cuts rerun_args a')
        = [FFin (2 # 3); FFin (1 # 4)]
      ∧ X a'' = [[1; 3]]
      ∧ obs_names a'' = ["c3"]
      ∧ var_names a'' = ["MT-A"; "G1"].
Proof.
  split; [split; [done | repeat constructor]|].
  split; [repeat constructor; lia|].
  exists (after_pct_mito rerun_args rerun_case),
    (after_pct_mito rerun_args (after_pct_mito rerun_args rerun_case)).
  split; [apply filter_engine_eq|]. split; [apply filter_engine_eq|].
  split_and!; by vm_compute.
Qed.

(** ** Comparisons and zipped lists *)

Lemma bool_decide_leb x y : bool_decide (x <= y) = (x <=? y).
Proof. case_bool_decide; destruct (Z.leb_spec x y); done || lia. Qed.

Lemma bool_decide_ltb x y : bool_decide (x < y) = (x <? y).
Proof. case_bool_decide; destruct (Z.ltb_spec x y); done || lia. Qed.

Lemma map_fst_zip {A B : Type} (l : list A) (k : list B) :
  length l = length k → map fst (zip l k) = l.
Proof.
  revert k. induction l as [|x l IH]; intros [|y k] H; simpl in *; try done.
  f_equal. apply IH. lia.
Qed.

Lemma map_snd_zip {A B : Type} (l : list A) (k : list B) :
  length l = length k → map snd (zip l k) = k.
Proof.
  revert k. induction l as [|x l IH]; intros [|y k] H; simpl in *; try done.
  f_equal. apply IH. lia.
Qed.

(** ** The theorems at the sample data *)

Lemma wf_sample : wf sample.
Proof. split; [reflexivity | repeat constructor]. Defined.

Lemma nonneg_sample : nonneg_counts sample.
Proof. repeat constructor; lia. Defined.

Lemma wf_scenario : wf scenario.
Proof. split; [reflexivity | repeat constructor]. Defined.

Lemma nonneg_scenario : nonneg_counts scenario.
Proof. repeat constructor; lia. Defined.



Lemma scenario_var_names :
  var_names (initial_cuts scenario_args scenario) = ["MT-CO1"; "ACTB"].
Proof. vm_compute. reflexivity. Defined.

Lemma scenario_only_mito j' g :
  var_names (initial_cuts scenario_args scenario) !! j' = Some g →
  is_mito g = true → j' = 0%nat.
Proof.
  rewrite scenario_var_names.
  destruct j' as [|[|j']]; simpl; intros [= <-]; [done | discriminate].
Defined.

Lemma scenario_mito_cut_witness :
  thr_pct_mito scenario_args = FFin (1 # 4)
  ∧ var_names (initial_cuts scenario_args scenario) !! 0%nat = Some "MT-CO1"
  ∧ Np.column 0 (X (initial_cuts scenario_args scenario)) = [10; 0; 0; 0; 0]
  ∧ Np.sum_axis1 (X (initial_cuts scenario_args scenario)) = [20; 5; 5; 5; 5]
  ∧ percent_mito (initial_cuts scenario_args scenario)
    = [FFin (1 # 2); FFin 0; FFin 0; FFin 0; FFin 0]
  ∧ flt (FFin (1 # 2)) (thr_pct_mito scenario_args) = false
  ∧ ∃ a' m,
      filter_engine scenario_args scenario = Some a'
      ∧ obs_names a'
        = Np.mask_select (false :: m)
            (obs_names (initial_cuts scenario_args scenario))
      ∧ X a'
        = Np.mask_select (false :: m) (X (initial_cuts scenario_args scenario)).
Proof.
  assert (H1 : thr_pct_mito scenario_args = FFin (1 # 4)) by reflexivity.
  assert (H2 : var_names (initial_cuts scenario_args scenario) !! 0%nat
               = Some "MT-CO1") by (vm_compute; reflexivity).
  assert (H3 : Np.column 0 (X (initial_cuts scenario_args scenario))
               = [10; 0; 0; 0; 0]) by (vm_compute; reflexivity).
  assert (H4 : Np.sum_axis1 (X (initial_cuts scenario_args scenario))
               = [20; 5; 5; 5; 5]) by (vm_compute; reflexivity).
  split; [exact H1|]. split; [exact H2|]. split; [exact H3|].
  split; [exact H4|].
  exact (scenario_mito_cut scenario_args scenario 0 H1 H2
           scenario_only_mito H3 H4).
Defined.

Lemma zero_threshold_keeps_all_witness :
  wf sample
  ∧ (X (Scanpy.filter_cells 0 sample) = X sample
     ∧ obs_names (Scanpy.filter_cells 0 sample) = obs_names sample
     ∧ var_names (Scanpy.filter_cells 0 sample) = var_names sample
     ∧ ∀ args, thr_min_genes args = 0 →
         Forall (λ b, b = true) (mask_min_genes args sample))
  ∧ (X (Scanpy.filter_genes 0 sample) = X sample
     ∧ obs_names (Scanpy.filter_genes 0 sample) = obs_names sample
     ∧ var_names (Scanpy.filter_genes 0 sample) = var_names sample
     ∧ ∀ args, thr_min_cells args = 0 →
         Forall (λ b, b = true) (mask_min_cells args sample)).
Proof.
  split; [exact wf_sample|].
  exact (zero_threshold_keeps_all sample wf_sample).
Defined.

Lemma zero_count_cells_are_removed_witness :
  wf sample ∧ nonneg_counts sample
  ∧ let a2 := initial_cuts sample_args sample in
    let a4 := after_n_genes sample_args sample in
    obs_float "percent_mito" (annotate a2) = Some (percent_mito a2)
    ∧ (∀ i row, X a2 !! i = Some row → Np.sum row = 0 →
         percent_mito a2 !! i = Some FNaN)
    ∧ (∀ t, flt FNaN t = false)
    ∧ cut_n_genes sample_args (annotate a2) = Some a4
    ∧ (∀ i row, X a4 !! i = Some row → Np.sum row = 0 →
         mask_pct_mito sample_args a4 !! i = Some false)
    ∧ ∃ a' out numi,
        cut_pct_mito sample_args a4 = Some a'
        ∧ a' = subset_obs (mask_pct_mito sample_args a4) a4
        ∧ filter_engine sample_args sample = Some a'
        ∧ initialFiltering sample_args sample = Some out
        ∧ Forall (λ row, Np.sum row ≠ 0) (X a')
        ∧ col_attrs out !! "nUMI" = Some (IntCol numi)
        ∧ Forall (λ n, n ≠ 0) numi.
Proof.
  split; [exact wf_sample|]. split; [exact nonneg_sample|].
  exact (zero_count_cells_are_removed sample_args sample wf_sample
           nonneg_sample).
Defined.

Lemma order_is_preserved_witness :
  wf sample
  ∧ (∀ i b c, stages sample_args sample !! i = Some b →
       stages sample_args sample !! S i = Some c →
       ∃ mc mg, selects mc mg b c)
  ∧ ∃ mc mg a' out,
      filter_engine sample_args sample = Some a'
      ∧ initialFiltering sample_args sample = Some out
      ∧ selects mc mg sample a'
      ∧ col_attrs out !! "CellID"
          = Some (StrCol (Np.mask_select mc (obs_names sample)))
      ∧ row_attrs out !! "Gene"
          = Some (StrCol (Np.mask_select mg (var_names sample)))
      ∧ Np.mask_select mc (obs_names sample) `sublist_of` obs_names sample
      ∧ Np.mask_select mg (var_names sample) `sublist_of` var_names sample
      ∧ matrix out
          = Np.transpose (length (Np.mask_select mg (var_names sample)))
              (map (Np.mask_select mg) (Np.mask_select mc (X sample))).
Proof.
  split; [exact wf_sample|].
  exact (order_is_preserved sample_args sample wf_sample).
Defined.

(** ** Worked examples *)

(** The scenario, run: the first cell is cut, the other four are written,
    gene by cell, with their identifiers and recomputed annotations. *)
Example scenario_output :
  initialFiltering scenario_args scenario
  = Some {| matrix := [[0; 0; 0; 0]; [5; 5; 5; 5]];
            row_attrs := {[ "Gene" := StrCol ["MT-CO1"; "ACTB"] ]};
            col_attrs :=
              <[ "CellID" := StrCol ["c2"; "c3"; "c4"; "c5"] ]>
              (<[ "nGene" := IntCol [1; 1; 1; 1] ]>
              {[ "nUMI" := IntCol [5; 5; 5; 5] ]}) |}.
Proof. vm_compute. reflexivity. Qed.

(** The genes-detected written by the writer is not the one carried in
    [obs]: on the sample the first cell has two detected genes on input,
    which [obs] still records, and one in the final matrix, which is what
    is written. *)
Example written_n_gene_is_recomputed :
  (filter_engine sample_args sample ≫= obs_int "n_genes") = Some [2; 2; 2]
  ∧ (initialFiltering sample_args sample ≫= λ out, col_attrs out !! "nGene")
    = Some (IntCol [1; 2; 2]).
Proof. split; vm_compute; reflexivity. Qed.

(** A cell with no counts at all passes the two initial cuts when the
    thresholds are 0, gets the fraction [nan], and is cut by line 75. *)
Example empty_cell_is_cut :
  let a := {| X := [[0; 0]; [3; 4]]; obs_names := ["e"; "c"];
              var_names := ["MT-ND1"; "ACTB"]; obs := ∅; var := ∅ |} in
  let args := {| loom_input := "in.loom"; loom_filtered := "out.loom";
                 thr_min_genes := 0; thr_min_cells := 0;
                 thr_n_genes := 5000; thr_pct_mito := FFin 1 |} in
  percent_mito (initial_cuts args a) = [FNaN; FFin (3 # 7)]
  ∧ (obs_names <$> filter_engine args a) = Some ["c"].
Proof. split; vm_compute; reflexivity. Qed.

Lemma steps_only_narrow_witness :
  (0 <= 5)%nat
  ∧ stages sample_args sample !! 0%nat = Some sample
  ∧ stages sample_args sample !! 5%nat
    = Some (after_pct_mito sample_args sample)
  ∧ narrows sample (after_pct_mito sample_args sample).
Proof.
  assert (H0 : (0 <= 5)%nat) by lia.
  assert (H1 : stages sample_args sample !! 0%nat = Some sample)
    by (vm_compute; reflexivity).
  assert (H2 : stages sample_args sample !! 5%nat
               = Some (after_pct_mito sample_args sample))
    by (vm_compute; reflexivity).
  split; [exact H0|]. split; [exact H1|]. split; [exact H2|].
  exact (proj1 (proj2 (proj2 (steps_only_narrow sample_args sample)))
           0%nat 5%nat _ _ H0 H1 H2).
Defined.

(** * Further properties of the script *)

(** ** The printed statistics *)

Lemma amin_lower x v : Forall (λ y, foldr Z.min x v <= y) (x :: v).
Proof.
  induction v as [|z v IH]; simpl.
  - constructor; [lia | constructor].
  - apply Forall_cons in IH as [Hx Hv]. constructor; [lia|].
    constructor; [lia|]. eapply Forall_impl; [exact Hv|]. simpl. lia.
Qed.

Lemma amax_upper x v : Forall (λ y, y <= foldr Z.max x v) (x :: v).
Proof.
  induction v as [|z v IH]; simpl.
  - constructor; [lia | constructor].
  - apply Forall_cons in IH as [Hx Hv]. constructor; [lia|].
    constructor; [lia|]. eapply Forall_impl; [exact Hv|]. simpl. lia.
Qed.

Lemma amin_elem x v : foldr Z.min x v ∈ x :: v.
Proof.
  induction v as [|z v IH]; simpl; [by left|].
  destruct (Z.min_spec z (foldr Z.min x v)) as [[_ ->]|[_ ->]].
  - right. by left.
  - apply elem_of_cons in IH as [->|IH]; [by left | by do 2 right].
Qed.

Lemma amax_elem x v : foldr Z.max x v ∈ x :: v.
Proof.
  induction v as [|z v IH]; simpl; [by left|].
  destruct (Z.max_spec z (foldr Z.max x v)) as [[_ ->]|[_ ->]].
  - apply elem_of_cons in IH as [->|IH]; [by left | by do 2 right].
  - right. by left.
Qed.

Lemma count_pos_le_length v : Np.count_pos v <= Z.of_nat (length v).
Proof.
  induction v as [|x v IH]; [done|].
  rewrite count_pos_cons. simpl length. case_bool_decide; lia.
Qed.

Lemma axis0_nil_iff (g : list Z → Z) n (M : list (list Z)) :
  map (λ j, g (Np.column j M)) (seq 0 n) = [] ↔ n = 0%nat.
Proof.
  split; [|by intros ->].
  destruct n; [done|]. simpl. discriminate.
Qed.

Lemma print_stats_none_iff a : print_stats a = None ↔ n_vars a = 0%nat.
Proof.
  unfold print_stats, nCountsPerGene, nCellsPerGene, Np.sum_axis0,
    Np.count_pos_axis0.
  destruct (n_vars a) as [|n]; simpl; [done|].
  split; intros; discriminate.
Qed.

(** X1.  The statistics of lines 36-50 can be printed exactly when the
    matrix has at least one gene; on a matrix without genes [min()]
    raises.  When they are printed, each range is ordered and is attained,
    it bounds every gene's value, and the number of cells a gene is
    detected in lies between 0 and the number of cells. *)
Theorem print_stats_ranges (a : AnnData) :
  (print_stats a = None ↔ n_vars a = 0%nat)
  ∧ ∀ r, print_stats a = Some r →
      Forall (λ c, (counts_per_gene r).1 <= c <= (counts_per_gene r).2)
             (nCountsPerGene a)
      ∧ Forall (λ c, (cells_per_gene r).1 <= c <= (cells_per_gene r).2)
               (nCellsPerGene a)
      ∧ (counts_per_gene r).1 ∈ nCountsPerGene a
      ∧ (counts_per_gene r).2 ∈ nCountsPerGene a
      ∧ (cells_per_gene r).1 ∈ nCellsPerGene a
      ∧ (cells_per_gene r).2 ∈ nCellsPerGene a
      ∧ 0 <= (cells_per_gene r).1
      ∧ (cells_per_gene r).1 <= (cells_per_gene r).2
      ∧ (cells_per_gene r).2 <= Z.of_nat (nCells a).
Proof.
  unfold print_stats.
  pose proof (axis0_nil_iff Np.sum (n_vars a) (X a)) as Hs.
  pose proof (axis0_nil_iff Np.count_pos (n_vars a) (X a)) as Hc.
  assert (Hbound : Forall (λ c, 0 <= c <= Z.of_nat (nCells a))
                     (nCellsPerGene a)).
  { unfold nCellsPerGene, Np.count_pos_axis0, nCells.
    apply Forall_map, Forall_forall. intros j _; simpl.
    pose proof (count_pos_le_length (Np.column j (X a))) as Hle.
    pose proof (count_pos_nonneg (Np.column j (X a))).
    unfold Np.column in Hle at 2. rewrite length_map in Hle. lia. }
  fold (nCountsPerGene a) in Hs. unfold Np.sum_axis0 in *.
  fold (Np.count_pos_axis0 (n_vars a) (X a)) in Hc.
  fold (nCellsPerGene a) in Hc.
  fold (Np.sum_axis0 (n_vars a) (X a)) in Hs. fold (nCountsPerGene a) in Hs.
  destruct (nCountsPerGene a) as [|s ss] eqn:Es;
    destruct (nCellsPerGene a) as [|c cs] eqn:Ec; simpl.
  - split; [split; [intros _; by apply Hs | done] | done].
  - exfalso. assert (n_vars a = 0%nat) as E0 by by apply Hs.
    apply Hc in E0. done.
  - exfalso. assert (n_vars a = 0%nat) as E0 by by apply Hc.
    apply Hs in E0. done.
  - split.
    { split; [done|]. intros E0. apply Hs in E0. done. }
    intros r [= <-]; simpl.
    pose proof (amin_lower s ss) as Hl1. pose proof (amax_upper s ss) as Hu1.
    pose proof (amin_lower c cs) as Hl2. pose proof (amax_upper c cs) as Hu2.
    pose proof (amin_elem c cs) as He1. pose proof (amax_elem c cs) as He2.
    split_and!.
    + apply Forall_and; split; [exact Hl1 | exact Hu1].
    + apply Forall_and; split; [exact Hl2 | exact Hu2].
    + apply amin_elem.
    + apply amax_elem.
    + exact He1.
    + exact He2.
    + eapply Forall_forall in Hbound; [|exact He1]. simpl in Hbound. lia.
    + pose proof (proj1 (Forall_forall _ _) (amin_lower c cs) _ He2) as H.
      exact H.
    + eapply Forall_forall in Hbound; [|exact He2]. simpl in Hbound. lia.
Qed.

(** ** The rows that pass line 54 *)

Lemma filter_cells_rows_pass thr a :
  Forall (λ row, thr <= Np.count_pos row) (X (Scanpy.filter_cells thr a)).
Proof.
  rewrite filter_cells_X. apply Forall_forall. intros row Hrow.
  apply list_elem_of_In, filter_In in Hrow as [_ Hp].
  by apply bool_decide_eq_true in Hp.
Qed.

(** ** Printed statistics against the gene cut *)

Lemma column_mask_select j m (M : list (list Z)) :
  Np.column j (Np.mask_select m M) = Np.mask_select m (Np.column j M).
Proof. unfold Np.column. by rewrite mask_select_map. Qed.

(** X4.  The cells-detected that line 55 compares with [thr_min_cells] is
    counted on the cells line 54 kept, so for every gene it is at most the
    cells-detected printed by line 41; a gene whose printed value is below
    [thr_min_cells] is therefore always cut by line 55. *)
Theorem printed_cells_bound_gene_cut (args : Args) (a : AnnData) :
  let a1 := Scanpy.filter_cells (thr_min_genes args) a in
  Forall2 (λ used printed, 0 <= used <= printed)
    (Np.count_pos_axis0 (n_vars a1) (X a1)) (nCellsPerGene a)
  ∧ length (mask_min_cells args a1) = n_vars a
  ∧ var_names (initial_cuts args a)
    = Np.mask_select (mask_min_cells args a1) (var_names a)
  ∧ ∀ j c, nCellsPerGene a !! j = Some c → c < thr_min_cells args →
      mask_min_cells args a1 !! j = Some false.
Proof.
  intros a1.
  assert (Hle : ∀ j, 0 <= Np.count_pos (Np.column j (X a1))
                     <= Np.count_pos (Np.column j (X a))).
  { intros j. split; [apply count_pos_nonneg|].
    unfold a1. rewrite filter_cells_mask. cbn [X subset_obs set_obs].
    rewrite column_mask_select. apply count_pos_mask_le. }
  split_and!.
  - unfold nCellsPerGene, Np.count_pos_axis0.
    change (n_vars a1) with (n_vars a).
    apply Forall2_fmap, Forall_Forall2_diag, Forall_forall.
    intros j _. apply Hle.
  - unfold mask_min_cells. by rewrite length_map, length_seq.
  - unfold initial_cuts. fold a1. by rewrite filter_genes_mask.
  - intros j c Hj Hc. unfold nCellsPerGene, Np.count_pos_axis0 in Hj.
    unfold mask_min_cells. change (n_vars a1) with (n_vars a).
    change (map ?f ?l) with (f <$> l) in Hj.
    change (map ?f ?l) with (f <$> l).
    rewrite list_lookup_fmap in Hj. rewrite list_lookup_fmap.
    destruct (seq 0 (n_vars a) !! j) as [j'|] eqn:E; [|done].
    cbn [fmap option_fmap option_map] in Hj |- *.
    injection Hj as <-. f_equal. apply bool_decide_eq_false.
    specialize (Hle j'). lia.
Qed.

(** ** What the engine records about what it returns *)

Lemma mask_select_all_false {A : Type} (m : list bool) (l : list A) :
  Forall (λ b, b = false) m → Np.mask_select m l = [].
Proof.
  intros Hm. revert l.
  induction Hm as [|b m -> _ IH]; intros [|x l]; simpl; auto.
Qed.

(** The rows the engine returns are rows of the state after line 54 under
    the gene mask, and [obs['n_genes']] holds the genes-detected of those
    rows before the gene mask. *)
Lemma engine_rows args a :
  ∃ R,
    X (after_pct_mito args a)
      = map (Np.mask_select
               (mask_min_cells args
                  (Scanpy.filter_cells (thr_min_genes args) a))) R
    ∧ obs_int "n_genes" (after_pct_mito args a) = Some (map Np.count_pos R)
    ∧ Forall (λ o, thr_min_genes args <= Np.count_pos o < thr_n_genes args) R.
Proof.
  set (a1 := Scanpy.filter_cells (thr_min_genes args) a).
  set (m4 := mask_n_genes args a1).
  set (m5 := mask_pct_mito args (after_n_genes args a)).
  exists (Np.mask_select m5 (Np.mask_select m4 (X a1))).
  split_and!.
  - assert (EX2 : X (initial_cuts args a)
                  = map (Np.mask_select (mask_min_cells args a1)) (X a1)).
    { unfold initial_cuts. fold a1. by rewrite filter_genes_mask. }
    change (X (after_pct_mito args a))
      with (Np.mask_select m5 (Np.mask_select m4 (X (initial_cuts args a)))).
    by rewrite EX2, !mask_select_map.
  - unfold after_pct_mito, after_n_genes. fold a1 m4 m5.
    rewrite !obs_int_subset_obs, initial_cuts_n_genes. fold a1. simpl.
    unfold Np.count_pos_axis1. by rewrite !mask_select_map.
  - apply mask_select_Forall. unfold m4, mask_n_genes.
    rewrite mask_select_filter. apply Forall_forall. intros o Ho.
    apply list_elem_of_In, filter_In in Ho as [Ho Hp].
    apply bool_decide_eq_true in Hp. split; [|done].
    pose proof (filter_cells_rows_pass (thr_min_genes args) a) as Hpass.
    eapply Forall_forall in Hpass; [exact Hpass|]. by apply list_elem_of_In.
Qed.

(** ** Thresholds that leave nothing *)

Lemma after_pct_mito_names args a :
  obs_names (after_pct_mito args a)
  = Np.mask_select (mask_pct_mito args (after_n_genes args a))
      (Np.mask_select
         (mask_n_genes args (Scanpy.filter_cells (thr_min_genes args) a))
         (obs_names (Scanpy.filter_cells (thr_min_genes args) a))).
Proof. done. Qed.

Lemma after_pct_mito_X args a :
  X (after_pct_mito args a)
  = Np.mask_select (mask_pct_mito args (after_n_genes args a))
      (Np.mask_select
         (mask_n_genes args (Scanpy.filter_cells (thr_min_genes args) a))
         (X (initial_cuts args a))).
Proof. done. Qed.

(** X6.  When the upper threshold on genes-detected is not above the
    lower one, no cell can pass both line 54 and line 74: the engine
    returns a state without cells, whatever the input. *)
Theorem contradictory_gene_thresholds (args : Args) (a : AnnData) :
  thr_n_genes args <= thr_min_genes args →
  ∃ r, filter_engine args a = Some r ∧ X r = [] ∧ obs_names r = [].
Proof.
  intros Hthr. exists (after_pct_mito args a).
  split; [apply filter_engine_eq|].
  assert (Hm : Forall (λ b, b = false)
    (mask_n_genes args (Scanpy.filter_cells (thr_min_genes args) a))).
  { unfold mask_n_genes. apply Forall_map.
    pose proof (filter_cells_rows_pass (thr_min_genes args) a) as Hpass.
    eapply Forall_impl; [exact Hpass|]. intros row Hrow; simpl in *.
    apply bool_decide_eq_false. lia. }
  rewrite after_pct_mito_X, after_pct_mito_names.
  rewrite !(mask_select_all_false _ _ Hm). by rewrite !mask_select_nil_r.
Qed.

Lemma mito_frac_nonneg genes row :
  Forall (λ x, 0 <= x) row →
  mito_frac genes row = FNaN
  ∨ ∃ q, mito_frac genes row = FFin q ∧ (0 <= q)%Q.
Proof.
  intros Hrow. unfold mito_frac.
  pose proof (sum_mask_le (map is_mito genes) row Hrow) as Hle.
  destruct (decide (Np.sum row = 0)) as [E0|Hne].
  - left. apply fdiv_nan_iff. lia.
  - right. destruct (fdiv_unit _ _ Hle Hne) as (q & -> & Hq & _). eauto.
Qed.

Lemma Qltb_false_nonpos p q : (0 <= p)%Q → (q <= 0)%Q → Qltb p q = false.
Proof.
  unfold Qle, Qltb; simpl. intros Hp Hq. apply Z.ltb_ge. nia.
Qed.

(** X7.  A mito threshold that is [nan] or minus infinity removes every
    cell of every input, and so does any threshold that is zero or
    negative when the counts are non-negative: a fraction is then [nan] or
    at least 0, and the comparison of line 75 is strict. *)
Theorem mito_threshold_nothing_below (args : Args) (a : AnnData) :
  thr_pct_mito args = FNaN ∨ thr_pct_mito args = FNegInf
  ∨ (nonneg_counts a ∧ ∃ q, thr_pct_mito args = FFin q ∧ (q <= 0)%Q) →
  ∃ r, filter_engine args a = Some r ∧ X r = [] ∧ obs_names r = [].
Proof.
  intros Hthr. exists (after_pct_mito args a).
  split; [apply filter_engine_eq|].
  assert (Hm : Forall (λ b, b = false)
                 (mask_pct_mito args (after_n_genes args a))).
  { unfold mask_pct_mito. apply Forall_map.
    destruct Hthr as [->|[->|(Hnn & q & -> & Hq)]].
    - apply Forall_forall. intros row _. by destruct (mito_frac _ row).
    - apply Forall_forall. intros row _. by destruct (mito_frac _ row).
    - assert (nonneg_counts (after_n_genes args a)) as Hnn4.
      { unfold after_n_genes. by apply nonneg_subset_obs, nonneg_initial_cuts. }
      eapply Forall_impl; [exact Hnn4|]. intros row Hrow; cbv beta.
      destruct (mito_frac_nonneg (var_names (after_n_genes args a)) row Hrow)
        as [->|(p & -> & Hp)]; [done|].
      simpl. by apply Qltb_false_nonpos. }
  rewrite after_pct_mito_X, after_pct_mito_names.
  by rewrite !(mask_select_all_false _ _ Hm).
Qed.

(** ** Annotations of the input *)

Lemma engine_same_data args a b :
  same_data a b → same_data (after_pct_mito args a) (after_pct_mito args b).
Proof.
  intros (HX & Ho & Hv).
  unfold same_data, after_pct_mito, after_n_genes, mask_pct_mito, mask_n_genes,
    annotate, initial_cuts, Scanpy.filter_genes, Scanpy.filter_cells, n_vars.
  cbn [X obs_names var_names subset_obs subset_var set_obs set_var].
  by rewrite HX, Ho, Hv.
Qed.

(** X8.  What is written depends on the matrix and the identifiers of the
    input only: two inputs that differ in their annotations ([obs] and
    [var], among them columns named like the ones the script writes) give
    the same output, and the same cells and genes in the engine. *)
Theorem input_annotations_are_ignored (args : Args) (a b : AnnData) :
  same_data a b →
  initialFiltering args a = initialFiltering args b
  ∧ ∃ ra rb, filter_engine args a = Some ra ∧ filter_engine args b = Some rb
             ∧ same_data ra rb.
Proof.
  intros Hab. pose proof (engine_same_data args a b Hab) as (HX & Ho & Hv).
  split.
  - unfold initialFiltering. rewrite !filter_engine_eq. simpl. f_equal.
    unfold loom_output, n_vars. by rewrite HX, Ho, Hv.
  - exists (after_pct_mito args a), (after_pct_mito args b).
    by rewrite !filter_engine_eq.
Qed.

Lemma col_select_and m1 m2 c :
  col_select m2 (col_select m1 c) = col_select (mask_and m1 m2) c.
Proof. destruct c; simpl; by rewrite mask_select_and. Qed.

(** X9.  Columns of [obs] and [var] that came with the input, under
    names the script does not write, are carried to the state the engine
    returns, cut by the very masks that cut the cell identifiers and the
    gene identifiers: they stay aligned with the cells and genes. *)
Theorem input_columns_are_carried (args : Args) (a : AnnData) :
  ∃ mc mg r,
    filter_engine args a = Some r
    ∧ obs_names r = Np.mask_select mc (obs_names a)
    ∧ var_names r = Np.mask_select mg (var_names a)
    ∧ (∀ k, k ≠ "n_genes" → k ≠ "percent_mito" → k ≠ "n_counts" →
         obs r !! k = col_select mc <$> obs a !! k)
    ∧ (∀ k, k ≠ "n_cells" → var r !! k = col_select mg <$> var a !! k).
Proof.
  set (a1 := Scanpy.filter_cells (thr_min_genes args) a).
  set (m1 := mask_min_genes args a).
  set (m4 := mask_n_genes args a1).
  set (m5 := mask_pct_mito args (after_n_genes args a)).
  exists (mask_and m1 (mask_and m4 m5)), (mask_min_cells args a1),
    (after_pct_mito args a).
  assert (E1 : a1 = subset_obs m1
            (set_obs "n_genes" (IntCol (Np.count_pos_axis1 (X a))) a))
    by apply filter_cells_mask.
  assert (E2 : initial_cuts args a = subset_var (mask_min_cells args a1)
            (set_var "n_cells"
               (IntCol (Np.count_pos_axis0 (n_vars a1) (X a1))) a1))
    by apply filter_genes_mask.
  split_and!.
  - apply filter_engine_eq.
  - rewrite after_pct_mito_names. fold a1 m4 m5. rewrite E1.
    cbn [obs_names subset_obs set_obs].
    by rewrite (mask_select_and m4 m5), (mask_select_and m1).
  - change (var_names (after_pct_mito args a))
      with (var_names (initial_cuts args a)).
    rewrite E2. cbn [var_names subset_var set_var]. by rewrite E1.
  - intros k K1 K2 K3.
    change (obs (after_pct_mito args a))
      with (col_select m5 <$> (col_select m4 <$>
              <["n_counts" := IntCol (Np.sum_axis1 (X (initial_cuts args a)))]>
              (<["percent_mito" := FloatCol (percent_mito (initial_cuts args a))]>
               (obs (initial_cuts args a))))).
    rewrite !lookup_fmap, !lookup_insert_ne by done.
    rewrite E2. cbn [obs subset_var set_var]. rewrite E1.
    cbn [obs subset_obs set_obs].
    rewrite lookup_fmap, lookup_insert_ne by done.
    destruct (obs a !! k) as [c|]; simpl; [|done].
    by rewrite (col_select_and m4 m5), (col_select_and m1).
  - intros k K.
    change (var (after_pct_mito args a)) with (var (initial_cuts args a)).
    rewrite E2. cbn [var subset_var set_var].
    rewrite lookup_fmap, lookup_insert_ne by done.
    rewrite E1. done.
Qed.

(** ** Each initial cut alone is idempotent *)

Lemma filter_cells_keeps_all thr b :
  wf b → Forall (λ row, thr <= Np.count_pos row) (X b) →
  same_data (Scanpy.filter_cells thr b) b.
Proof.
  intros [HX _] H1. unfold Scanpy.filter_cells, Np.count_pos_axis1.
  rewrite map_map.
  apply (subset_obs_all _ (set_obs "n_genes" _ b)).
  - apply Forall_map. eapply Forall_impl; [exact H1|].
    intros row Hrow; simpl. by apply bool_decide_eq_true.
  - by rewrite length_map.
  - unfold n_obs in *. rewrite length_map. simpl. lia.
Qed.

(** X10.  Line 54 applied twice with the same threshold does what it does
    once: on a well-shaped input the second application keeps every cell
    and records the same genes-detected. *)
Theorem filter_cells_idempotent (thr : Z) (a : AnnData) :
  wf a →
  same_data (Scanpy.filter_cells thr (Scanpy.filter_cells thr a))
            (Scanpy.filter_cells thr a)
  ∧ obs_int "n_genes" (Scanpy.filter_cells thr (Scanpy.filter_cells thr a))
    = obs_int "n_genes" (Scanpy.filter_cells thr a).
Proof.
  intros Hwf.
  assert (same_data (Scanpy.filter_cells thr (Scanpy.filter_cells thr a))
            (Scanpy.filter_cells thr a)) as Hsame.
  { apply filter_cells_keeps_all; [by apply wf_filter_cells|].
    apply filter_cells_rows_pass. }
  split; [exact Hsame|].
  rewrite !filter_cells_n_genes. destruct Hsame as (-> & _ & _). done.
Qed.

Lemma transpose_S n (M : list (list Z)) :
  Np.transpose (S n) M = Np.column 0 M :: Np.transpose n (map (drop 1) M).
Proof.
  unfold Np.transpose. simpl. f_equal.
  rewrite <- seq_shift, map_map. apply map_ext. intros j.
  unfold Np.column. rewrite map_map. apply map_ext. intros row.
  by rewrite lookup_drop.
Qed.

Lemma mask_select_drop_false (m : list bool) (row : list Z) :
  Np.mask_select (false :: m) row = Np.mask_select m (drop 1 row).
Proof. destruct row; simpl; [by rewrite mask_select_nil_r | by rewrite drop_0]. Qed.

Lemma column0_mask_true (m : list bool) (M : list (list Z)) :
  Np.column 0 (map (Np.mask_select (true :: m)) M) = Np.column 0 M.
Proof.
  unfold Np.column. rewrite map_map. apply map_ext. by intros [|x row].
Qed.

Lemma drop_mask_true (m : list bool) (M : list (list Z)) :
  map (drop 1) (map (Np.mask_select (true :: m)) M)
  = map (Np.mask_select m) (map (drop 1) M).
Proof.
  rewrite !map_map. apply map_ext. intros [|x row]; simpl.
  - by rewrite mask_select_nil_r.
  - by rewrite !drop_0.
Qed.

(** Cutting columns and then transposing is transposing and then cutting
    rows. *)
Lemma transpose_mask_select {B : Type} (m : list bool) (names : list B)
    (M : list (list Z)) :
  length names = length m →
  Np.transpose (length (Np.mask_select m names)) (map (Np.mask_select m) M)
  = Np.mask_select m (Np.transpose (length m) M).
Proof.
  revert names M. induction m as [|b m IH]; intros [|g names] M Hlen;
    simpl in Hlen; try done.
  change (length (b :: m)) with (S (length m)).
  rewrite (transpose_S (length m) M).
  destruct b.
  - change (length (Np.mask_select (true :: m) (g :: names)))
      with (S (length (Np.mask_select m names))).
    rewrite transpose_S, column0_mask_true, drop_mask_true, IH by lia. done.
  - change (length (Np.mask_select (false :: m) (g :: names)))
      with (length (Np.mask_select m names)).
    change (Np.mask_select (false :: m)
              (Np.column 0 M :: Np.transpose (length m) (map (drop 1) M)))
      with (Np.mask_select m (Np.transpose (length m) (map (drop 1) M))).
    rewrite (map_ext _ (λ row, Np.mask_select m (drop 1 row)))
      by apply mask_select_drop_false.
    rewrite <- (map_map (drop 1) (Np.mask_select m)).
    apply IH. lia.
Qed.

Lemma count_pos_axis0_mask_select {B : Type} (m : list bool)
    (names : list B) (M : list (list Z)) :
  length names = length m →
  Np.count_pos_axis0 (length (Np.mask_select m names))
    (map (Np.mask_select m) M)
  = Np.mask_select m (Np.count_pos_axis0 (length m) M).
Proof.
  intros Hlen.
  assert (E : ∀ n N, Np.count_pos_axis0 n N
                     = map Np.count_pos (Np.transpose n N)).
  { intros n N. unfold Np.count_pos_axis0, Np.transpose. by rewrite map_map. }
  by rewrite !E, (transpose_mask_select m names), mask_select_map.
Qed.

Lemma filter_genes_keeps_all thr b :
  wf b →
  Forall (λ n, thr <= n) (Np.count_pos_axis0 (n_vars b) (X b)) →
  same_data (Scanpy.filter_genes thr b) b.
Proof.
  intros Hwf H2. unfold Scanpy.filter_genes.
  apply (subset_var_all _ (set_var "n_cells" _ b)).
  - apply Forall_map. eapply Forall_impl; [exact H2|].
    intros n Hn; simpl. by apply bool_decide_eq_true.
  - done.
  - unfold Np.count_pos_axis0. by rewrite !length_map, length_seq.
Qed.

(** X11.  Line 55 applied twice with the same threshold does what it does
    once: removing genes does not change in how many cells the remaining
    genes are detected, so on a well-shaped input the second application
    keeps every gene and records the same cells-detected. *)
Theorem filter_genes_idempotent (thr : Z) (a : AnnData) :
  wf a →
  same_data (Scanpy.filter_genes thr (Scanpy.filter_genes thr a))
            (Scanpy.filter_genes thr a)
  ∧ var (Scanpy.filter_genes thr (Scanpy.filter_genes thr a)) !! "n_cells"
    = var (Scanpy.filter_genes thr a) !! "n_cells".
Proof.
  intros Hwf.
  set (c := Np.count_pos_axis0 (n_vars a) (X a)).
  set (m := map (λ n, bool_decide (thr <= n)) c).
  assert (Hm : length (var_names a) = length m).
  { unfold m, c, Np.count_pos_axis0. by rewrite !length_map, length_seq. }
  assert (Hc : Np.count_pos_axis0 (n_vars (Scanpy.filter_genes thr a))
                 (X (Scanpy.filter_genes thr a))
               = Np.mask_select m c).
  { unfold Scanpy.filter_genes, n_vars. fold c m.
    cbn [X var_names subset_var set_var].
    rewrite (count_pos_axis0_mask_select m (var_names a)) by done.
    by rewrite <- Hm. }
  assert (Hall : Forall (λ n, thr <= n) (Np.mask_select m c)).
  { eapply Forall_impl; [apply mask_select_test|].
    intros n Hn; simpl in Hn. by apply bool_decide_eq_true in Hn. }
  assert (same_data (Scanpy.filter_genes thr (Scanpy.filter_genes thr a))
            (Scanpy.filter_genes thr a)) as Hsame.
  { apply filter_genes_keeps_all; [by apply wf_filter_genes|].
    by rewrite Hc. }
  split; [exact Hsame|].
  unfold Scanpy.filter_genes at 1. cbn [var subset_var set_var].
  rewrite lookup_fmap, lookup_insert_eq. cbn [fmap option_fmap option_map col_select].
  rewrite Hc.
  rewrite mask_select_all.
  - unfold Scanpy.filter_genes. cbn [var subset_var set_var].
    by rewrite lookup_fmap, lookup_insert_eq.
  - apply Forall_map. eapply Forall_impl; [exact Hall|].
    intros n Hn; simpl. by apply bool_decide_eq_true.
  - by rewrite length_map.
Qed.

(** ** Relaxing an upper threshold *)

Lemma mask_select_mono {A : Type} (m m' : list bool) (k : list A) :
  Forall2 (λ b b', b = true → b' = true) m m' →
  Np.mask_select m k `sublist_of` Np.mask_select m' k.
Proof.
  intros H. revert k. induction H as [|b b' m m' Hb _ IH]; intros [|x k];
    simpl; try apply sublist_nil_l.
  destruct b, b'; try (by specialize (Hb eq_refl)).
  - by apply sublist_skip.
  - by apply sublist_cons.
  - apply IH.
Qed.

Lemma select_twice_mono {A B : Type} (f : A → bool) (m m' : list bool)
    (l : list A) (k : list B) :
  Forall2 (λ b b', b = true → b' = true) m m' →
  select_twice f m l k `sublist_of` select_twice f m' l k.
Proof.
  unfold select_twice. intros H. revert l k.
  induction H as [|b b' m m' Hb _ IH]; intros [|x l] [|y k];
    simpl; try apply sublist_nil_l.
  - destruct b, b'; simpl; rewrite ?mask_select_nil_r; apply sublist_nil_l.
  - destruct b, b'; try (by specialize (Hb eq_refl)); simpl.
    + destruct (f x); [apply sublist_skip|]; apply IH.
    + destruct (f x); [apply sublist_cons|]; apply IH.
    + apply IH.
Qed.

Lemma after_pct_mito_select_twice args a :
  obs_names (after_pct_mito args a)
  = select_twice
      (λ row, flt (mito_frac (var_names (initial_cuts args a)) row)
                (thr_pct_mito args))
      (mask_n_genes args (Scanpy.filter_cells (thr_min_genes args) a))
      (X (initial_cuts args a)) (obs_names (initial_cuts args a))
  ∧ X (after_pct_mito args a)
  = select_twice
      (λ row, flt (mito_frac (var_names (initial_cuts args a)) row)
                (thr_pct_mito args))
      (mask_n_genes args (Scanpy.filter_cells (thr_min_genes args) a))
      (X (initial_cuts args a)) (X (initial_cuts args a)).
Proof. done. Qed.

Lemma initial_cuts_thresholds args args' a :
  thr_min_genes args' = thr_min_genes args →
  thr_min_cells args' = thr_min_cells args →
  initial_cuts args' a = initial_cuts args a.
Proof. unfold initial_cuts. by intros -> ->. Qed.

(** X12.  With the other thresholds fixed, raising [thr_n_genes] never
    loses a cell: the cells (identifiers and rows) the engine returns
    under the lower value are a subsequence of those it returns under the
    higher value, over the same genes. *)
Theorem raising_thr_n_genes_keeps_cells (args args' : Args) (a : AnnData) :
  thr_min_genes args' = thr_min_genes args →
  thr_min_cells args' = thr_min_cells args →
  thr_pct_mito args' = thr_pct_mito args →
  thr_n_genes args <= thr_n_genes args' →
  ∃ r r',
    filter_engine args a = Some r ∧ filter_engine args' a = Some r'
    ∧ obs_names r `sublist_of` obs_names r'
    ∧ X r `sublist_of` X r'
    ∧ var_names r = var_names r'.
Proof.
  intros E1 E2 E3 Hle.
  exists (after_pct_mito args a), (after_pct_mito args' a).
  rewrite !filter_engine_eq. split; [done|]. split; [done|].
  destruct (after_pct_mito_select_twice args a) as [-> ->].
  destruct (after_pct_mito_select_twice args' a) as [-> ->].
  rewrite (initial_cuts_thresholds args args' a E1 E2), E1, E3.
  assert (Hm : Forall2 (λ b b', b = true → b' = true)
    (mask_n_genes args (Scanpy.filter_cells (thr_min_genes args) a))
    (mask_n_genes args' (Scanpy.filter_cells (thr_min_genes args) a))).
  { unfold mask_n_genes. apply Forall2_fmap, Forall_Forall2_diag, Forall_forall.
    intros row _ Hb. apply bool_decide_eq_true in Hb.
    apply bool_decide_eq_true. lia. }
  split_and!; [by apply select_twice_mono..|].
  change (var_names (after_pct_mito args a))
    with (var_names (initial_cuts args a)).
  change (var_names (after_pct_mito args' a))
    with (var_names (initial_cuts args' a)).
  by rewrite (initial_cuts_thresholds args args' a E1 E2).
Qed.

Lemma Qltb_lt p q : Qltb p q = true ↔ (p < q)%Q.
Proof. unfold Qltb, Qlt. apply Z.ltb_lt. Qed.

Lemma flt_mono x q q' :
  (q <= q')%Q → flt x (FFin q) = true → flt x (FFin q') = true.
Proof.
  intros Hq. destruct x as [| |p|]; simpl; try done.
  rewrite !Qltb_lt. intros Hp. by eapply Qlt_le_trans.
Qed.

(** X13.  With the other thresholds fixed, raising a finite
    [thr_pct_mito] never loses a cell either. *)
Theorem raising_thr_pct_mito_keeps_cells (args args' : Args) (a : AnnData)
    (q q' : Q) :
  thr_min_genes args' = thr_min_genes args →
  thr_min_cells args' = thr_min_cells args →
  thr_n_genes args' = thr_n_genes args →
  thr_pct_mito args = FFin q → thr_pct_mito args' = FFin q' →
  (q <= q')%Q →
  ∃ r r',
    filter_engine args a = Some r ∧ filter_engine args' a = Some r'
    ∧ obs_names r `sublist_of` obs_names r'
    ∧ X r `sublist_of` X r'
    ∧ var_names r = var_names r'.
Proof.
  intros E1 E2 E3 Eq Eq' Hle.
  exists (after_pct_mito args a), (after_pct_mito args' a).
  rewrite !filter_engine_eq. split; [done|]. split; [done|].
  destruct (after_pct_mito_select_twice args a) as [-> ->].
  destruct (after_pct_mito_select_twice args' a) as [-> ->].
  rewrite (initial_cuts_thresholds args args' a E1 E2), E1, Eq, Eq'.
  replace (mask_n_genes args' (Scanpy.filter_cells (thr_min_genes args) a))
    with (mask_n_genes args (Scanpy.filter_cells (thr_min_genes args) a))
    by (unfold mask_n_genes; by rewrite E3).
  unfold select_twice.
  split_and!.
  - apply mask_select_mono, Forall2_fmap, Forall_Forall2_diag, Forall_forall.
    intros row _. by apply flt_mono.
  - apply mask_select_mono, Forall2_fmap, Forall_Forall2_diag, Forall_forall.
    intros row _. by apply flt_mono.
  - change (var_names (after_pct_mito args a))
      with (var_names (initial_cuts args a)).
    change (var_names (after_pct_mito args' a))
      with (var_names (initial_cuts args' a)).
    by rewrite (initial_cuts_thresholds args args' a E1 E2).
Qed.

(** ** What is written against what is recorded *)

Lemma after_pct_mito_n_counts args a :
  obs_int "n_counts" (after_pct_mito args a)
  = Some (Np.sum_axis1 (X (after_pct_mito args a))).
Proof.
  unfold after_pct_mito, after_n_genes.
  rewrite !obs_int_subset_obs. unfold annotate at 2.
  rewrite obs_int_set_obs_eq. simpl.
  unfold Np.sum_axis1. by rewrite !mask_select_map.
Qed.

(** X14.  On a well-shaped input, the genes-detected written for a cell
    (recounted on the final matrix) is at most the genes-detected recorded
    for that cell in [obs] (counted before the gene cut), and is
    therefore below [thr_n_genes]. *)
Theorem written_nGene_bounds (args : Args) (a : AnnData) :
  wf a →
  ∃ r out ng w,
    filter_engine args a = Some r
    ∧ initialFiltering args a = Some out
    ∧ obs_int "n_genes" r = Some ng
    ∧ col_attrs out !! "nGene" = Some (IntCol w)
    ∧ Forall2 (λ written recorded, 0 <= written <= recorded) w ng
    ∧ Forall (λ n, 0 <= n < thr_n_genes args) w.
Proof.
  intros Hwf. destruct (engine_rows args a) as (R & HX & Hng & HR).
  exists (after_pct_mito args a), (loom_output (after_pct_mito args a)),
    (map Np.count_pos R), (Np.count_pos_axis1 (X (after_pct_mito args a))).
  split_and!.
  - apply filter_engine_eq.
  - unfold initialFiltering. by rewrite filter_engine_eq.
  - exact Hng.
  - by apply loom_nGene, wf_after_pct_mito.
  - rewrite HX. unfold Np.count_pos_axis1. rewrite map_map.
    apply Forall2_fmap, Forall_Forall2_diag, Forall_forall.
    intros o _. split; [apply count_pos_nonneg | apply count_pos_mask_le].
  - unfold Np.count_pos_axis1. apply Forall_map.
    eapply Forall_impl; [apply after_pct_mito_n_genes|].
    intros row Hrow; cbv beta in *. pose proof (count_pos_nonneg row). lia.
Qed.

(** X15.  On a well-shaped input, the total counts written for the cells
    are the total counts recorded in [obs] by line 64: no gene is removed
    after that line, so recounting gives the same. *)
Theorem written_nUMI_is_recorded (args : Args) (a : AnnData) :
  wf a →
  ∃ r out nc,
    filter_engine args a = Some r
    ∧ initialFiltering args a = Some out
    ∧ obs_int "n_counts" r = Some nc
    ∧ col_attrs out !! "nUMI" = Some (IntCol nc).
Proof.
  intros Hwf.
  exists (after_pct_mito args a), (loom_output (after_pct_mito args a)),
    (Np.sum_axis1 (X (after_pct_mito args a))).
  split_and!.
  - apply filter_engine_eq.
  - unfold initialFiltering. by rewrite filter_engine_eq.
  - apply after_pct_mito_n_counts.
  - by apply loom_nUMI, wf_after_pct_mito.
Qed.

(** ** The written arrays *)

Lemma transpose_transpose n (M : list (list Z)) :
  Forall (λ row, length row = n) M →
  Np.transpose (length M) (Np.transpose n M) = M.
Proof.
  intros HM. unfold Np.transpose at 1.
  transitivity (map (λ i, id (default [] (M !! i))) (seq 0 (length M))).
  - apply map_ext_in. intros i Hi%in_seq.
    destruct (lookup_lt_is_Some_2 M i) as [row Hrow]; [lia|].
    rewrite Hrow; simpl. apply column_transpose; [done|].
    exact (Forall_lookup_1 _ _ _ _ HM Hrow).
  - rewrite map_seq_lookup. apply map_id.
Qed.

(** X16.  On a well-shaped state, the arrays handed to [lp.create] fit
    together and lose nothing: there is one gene identifier per row of
    the written matrix, and one cell identifier, one [nGene] and one
    [nUMI] per column; transposing the written matrix back gives the
    matrix of the state, so matrix, cell identifiers and gene identifiers
    can be read back from what is written. *)
Theorem written_arrays_fit (a : AnnData) :
  wf a →
  ∃ genes cells ng nu,
    row_attrs (loom_output a) !! "Gene" = Some (StrCol genes)
    ∧ col_attrs (loom_output a) !! "CellID" = Some (StrCol cells)
    ∧ col_attrs (loom_output a) !! "nGene" = Some (IntCol ng)
    ∧ col_attrs (loom_output a) !! "nUMI" = Some (IntCol nu)
    ∧ length genes = length (matrix (loom_output a))
    ∧ Forall (λ col, length col = length cells) (matrix (loom_output a))
    ∧ length ng = length cells
    ∧ length nu = length cells
    ∧ same_data
        {| X := Np.transpose (length cells) (matrix (loom_output a));
           obs_names := cells; var_names := genes; obs := ∅; var := ∅ |}
        a.
Proof.
  intros Hwf. pose proof Hwf as [HX Hrows]. unfold n_obs in HX.
  exists (var_names a), (obs_names a), (Np.count_pos_axis1 (X a)),
    (Np.sum_axis1 (X a)).
  split_and!.
  - unfold loom_output; cbn [row_attrs]. by rewrite lookup_singleton_eq.
  - unfold loom_output; cbn [col_attrs]. by rewrite lookup_insert_eq.
  - by apply loom_nGene.
  - by apply loom_nUMI.
  - unfold loom_output; cbn [matrix]. unfold Np.transpose.
    by rewrite length_map, length_seq.
  - unfold loom_output; cbn [matrix]. unfold Np.transpose.
    apply Forall_map, Forall_forall. intros j _; simpl.
    unfold Np.column. by rewrite length_map.
  - unfold Np.count_pos_axis1. by rewrite length_map.
  - unfold Np.sum_axis1. by rewrite length_map.
  - unfold same_data; cbn [X obs_names var_names].
    split_and!; try done.
    unfold loom_output; cbn [matrix]. rewrite <- HX.
    by apply transpose_transpose.
Qed.

(** ** Division by zero, identifiers *)


Lemma engine_narrows args a : narrows a (after_pct_mito args a).
Proof.
  etrans; [apply (narrows_filter_cells (thr_min_genes args))|].
  etrans; [apply (narrows_filter_genes (thr_min_cells args))|].
  etrans; [apply narrows_annotate|].
  etrans; apply narrows_subset_obs.
Qed.

(** X18.  Identifiers that are unique in the input are unique in what
    the engine returns and in what is written. *)
Theorem unique_identifiers_stay_unique (args : Args) (a : AnnData) :
  NoDup (obs_names a) → NoDup (var_names a) →
  ∃ r out,
    filter_engine args a = Some r
    ∧ initialFiltering args a = Some out
    ∧ NoDup (obs_names r) ∧ NoDup (var_names r)
    ∧ col_attrs out !! "CellID" = Some (StrCol (obs_names r))
    ∧ row_attrs out !! "Gene" = Some (StrCol (var_names r)).
Proof.
  intros Ho Hv.
  destruct (engine_narrows args a) as (So & Sv & _).
  exists (after_pct_mito args a), (loom_output (after_pct_mito args a)).
  split_and!.
  - apply filter_engine_eq.
  - unfold initialFiltering. by rewrite filter_engine_eq.
  - exact (sublist_NoDup _ _ Ho So).
  - exact (sublist_NoDup _ _ Hv Sv).
  - unfold loom_output; cbn [col_attrs]. by rewrite lookup_insert_eq.
  - unfold loom_output; cbn [row_attrs]. by rewrite lookup_singleton_eq.
Qed.

(** ** The further properties at the sample data *)

Lemma contradictory_gene_thresholds_witness :
  thr_n_genes window_args <= thr_min_genes window_args
  ∧ ∃ r, filter_engine window_args sample = Some r
         ∧ X r = [] ∧ obs_names r = [].
Proof.
  assert (H : thr_n_genes window_args <= thr_min_genes window_args)
    by (simpl; lia).
  split; [exact H|].
  exact (contradictory_gene_thresholds window_args sample H).
Defined.

Lemma mito_threshold_nothing_below_witness :
  (thr_pct_mito nan_args = FNaN ∨ thr_pct_mito nan_args = FNegInf
   ∨ (nonneg_counts scenario
      ∧ ∃ q, thr_pct_mito nan_args = FFin q ∧ (q <= 0)%Q))
  ∧ ∃ r, filter_engine nan_args scenario = Some r
         ∧ X r = [] ∧ obs_names r = [].
Proof.
  assert (H : thr_pct_mito nan_args = FNaN ∨ thr_pct_mito nan_args = FNegInf
              ∨ (nonneg_counts scenario
                 ∧ ∃ q, thr_pct_mito nan_args = FFin q ∧ (q <= 0)%Q))
    by (left; reflexivity).
  split; [exact H|].
  exact (mito_threshold_nothing_below nan_args scenario H).
Defined.

Lemma same_data_sample_annotated : same_data sample_annotated sample.
Proof. repeat split. Defined.

Lemma input_annotations_are_ignored_witness :
  same_data sample_annotated sample
  ∧ initialFiltering sample_args sample_annotated
    = initialFiltering sample_args sample
  ∧ ∃ ra rb,
      filter_engine sample_args sample_annotated = Some ra
      ∧ filter_engine sample_args sample = Some rb
      ∧ same_data ra rb.
Proof.
  split; [exact same_data_sample_annotated|].
  exact (input_annotations_are_ignored sample_args sample_annotated sample
           same_data_sample_annotated).
Defined.

Lemma filter_cells_idempotent_witness :
  wf sample
  ∧ same_data (Scanpy.filter_cells 2 (Scanpy.filter_cells 2 sample))
              (Scanpy.filter_cells 2 sample)
  ∧ obs_int "n_genes" (Scanpy.filter_cells 2 (Scanpy.filter_cells 2 sample))
    = obs_int "n_genes" (Scanpy.filter_cells 2 sample).
Proof.
  split; [exact wf_sample|].
  exact (filter_cells_idempotent 2 sample wf_sample).
Defined.

Lemma filter_genes_idempotent_witness :
  wf sample
  ∧ same_data (Scanpy.filter_genes 2 (Scanpy.filter_genes 2 sample))
              (Scanpy.filter_genes 2 sample)
  ∧ var (Scanpy.filter_genes 2 (Scanpy.filter_genes 2 sample)) !! "n_cells"
    = var (Scanpy.filter_genes 2 sample) !! "n_cells".
Proof.
  split; [exact wf_sample|].
  exact (filter_genes_idempotent 2 sample wf_sample).
Defined.

Lemma raising_thr_n_genes_keeps_cells_witness :
  thr_min_genes more_genes_args = thr_min_genes scenario_args
  ∧ thr_min_cells more_genes_args = thr_min_cells scenario_args
  ∧ thr_pct_mito more_genes_args = thr_pct_mito scenario_args
  ∧ thr_n_genes scenario_args <= thr_n_genes more_genes_args
  ∧ ∃ r r',
      filter_engine scenario_args scenario = Some r
      ∧ filter_engine more_genes_args scenario = Some r'
      ∧ obs_names r `sublist_of` obs_names r'
      ∧ X r `sublist_of` X r'
      ∧ var_names r = var_names r'.
Proof.
  assert (H4 : thr_n_genes scenario_args <= thr_n_genes more_genes_args)
    by (simpl; lia).
  split; [reflexivity|]. split; [reflexivity|]. split; [reflexivity|].
  split; [exact H4|].
  exact (raising_thr_n_genes_keeps_cells scenario_args more_genes_args scenario
           eq_refl eq_refl eq_refl H4).
Defined.

Lemma raising_thr_pct_mito_keeps_cells_witness :
  thr_min_genes more_mito_args = thr_min_genes scenario_args
  ∧ thr_min_cells more_mito_args = thr_min_cells scenario_args
  ∧ thr_n_genes more_mito_args = thr_n_genes scenario_args
  ∧ thr_pct_mito scenario_args = FFin (1 # 4)
  ∧ thr_pct_mito more_mito_args = FFin (3 # 4)
  ∧ (1 # 4 <= 3 # 4)%Q
  ∧ ∃ r r',
      filter_engine scenario_args scenario = Some r
      ∧ filter_engine more_mito_args scenario = Some r'
      ∧ obs_names r `sublist_of` obs_names r'
      ∧ X r `sublist_of` X r'
      ∧ var_names r = var_names r'.
Proof.
  assert (H6 : (1 # 4 <= 3 # 4)%Q) by (unfold Qle; simpl; lia).
  do 5 (split; [reflexivity|]). split; [exact H6|].
  exact (raising_thr_pct_mito_keeps_cells scenario_args more_mito_args scenario
           (1 # 4) (3 # 4) eq_refl eq_refl eq_refl eq_refl eq_refl H6).
Defined.

Lemma written_nGene_bounds_witness :
  wf sample
  ∧ ∃ r out ng w,
      filter_engine sample_args sample = Some r
      ∧ initialFiltering sample_args sample = Some out
      ∧ obs_int "n_genes" r = Some ng
      ∧ col_attrs out !! "nGene" = Some (IntCol w)
      ∧ Forall2 (λ written recorded, 0 <= written <= recorded) w ng
      ∧ Forall (λ n, 0 <= n < thr_n_genes sample_args) w.
Proof.
  split; [exact wf_sample|].
  exact (written_nGene_bounds sample_args sample wf_sample).
Defined.

Lemma written_nUMI_is_recorded_witness :
  wf sample
  ∧ ∃ r out nc,
      filter_engine sample_args sample = Some r
      ∧ initialFiltering sample_args sample = Some out
      ∧ obs_int "n_counts" r = Some nc
      ∧ col_attrs out !! "nUMI" = Some (IntCol nc).
Proof.
  split; [exact wf_sample|].
  exact (written_nUMI_is_recorded sample_args sample wf_sample).
Defined.

Lemma written_arrays_fit_witness :
  wf scenario
  ∧ ∃ genes cells ng nu,
      row_attrs (loom_output scenario) !! "Gene" = Some (StrCol genes)
      ∧ col_attrs (loom_output scenario) !! "CellID" = Some (StrCol cells)
      ∧ col_attrs (loom_output scenario) !! "nGene" = Some (IntCol ng)
      ∧ col_attrs (loom_output scenario) !! "nUMI" = Some (IntCol nu)
      ∧ length genes = length (matrix (loom_output scenario))
      ∧ Forall (λ col, length col = length cells)
               (matrix (loom_output scenario))
      ∧ length ng = length cells
      ∧ length nu = length cells
      ∧ same_data
          {| X := Np.transpose (length cells) (matrix (loom_output scenario));
             obs_names := cells; var_names := genes; obs := ∅; var := ∅ |}
          scenario.
Proof.
  split; [exact wf_scenario|].
  exact (written_arrays_fit scenario wf_scenario).
Defined.


Lemma nodup_sample_obs : NoDup (obs_names sample).
Proof. refine (bool_decide_unpack _ _). vm_compute. exact I. Defined.

Lemma nodup_sample_var : NoDup (var_names sample).
Proof. refine (bool_decide_unpack _ _). vm_compute. exact I. Defined.

Lemma unique_identifiers_stay_unique_witness :
  NoDup (obs_names sample) ∧ NoDup (var_names sample)
  ∧ ∃ r out,
      filter_engine sample_args sample = Some r
      ∧ initialFiltering sample_args sample = Some out
      ∧ NoDup (obs_names r) ∧ NoDup (var_names r)
      ∧ col_attrs out !! "CellID" = Some (StrCol (obs_names r))
      ∧ row_attrs out !! "Gene" = Some (StrCol (var_names r)).
Proof.
  split; [exact nodup_sample_obs|]. split; [exact nodup_sample_var|].
  exact (unique_identifiers_stay_unique sample_args sample
           nodup_sample_obs nodup_sample_var).
Defined.


(** * The script over any arithmetic

    The properties below are proved of the second embedding, for every
    arithmetic [ops] and every behaviour [draws] of the plots: they are
    properties of the order of the lines, of the masks and of what is
    stored where, and hold whatever the sums and the quotient round to. *)

Section generic.

Import Generic.

Context {V F T : Type}.
Variable ops : Arith V F T.
Variable draws : list Z → list V → list F → bool.

Implicit Types (a b : AnnData V F) (args : Args T).

(** ** Columns of the data frames *)

Lemma g_obs_int_subset_obs k m a :
  obs_int k (subset_obs m a) = Np.mask_select m <$> obs_int k a.
Proof.
  unfold obs_int, subset_obs; simpl. rewrite lookup_fmap.
  destruct (obs a !! k) as [[]|]; done.
Qed.

Lemma g_obs_num_subset_obs k m a :
  obs_num k (subset_obs m a) = Np.mask_select m <$> obs_num k a.
Proof.
  unfold obs_num, subset_obs; simpl. rewrite lookup_fmap.
  destruct (obs a !! k) as [[]|]; done.
Qed.

Lemma g_obs_float_subset_obs k m a :
  obs_float k (subset_obs m a) = Np.mask_select m <$> obs_float k a.
Proof.
  unfold obs_float, subset_obs; simpl. rewrite lookup_fmap.
  destruct (obs a !! k) as [[]|]; done.
Qed.

Lemma g_obs_int_set_obs_eq k l a : obs_int k (set_obs k (IntCol l) a) = Some l.
Proof. unfold obs_int, set_obs; simpl. by rewrite lookup_insert_eq. Qed.

Lemma g_obs_num_set_obs_eq k l a : obs_num k (set_obs k (NumCol l) a) = Some l.
Proof. unfold obs_num, set_obs; simpl. by rewrite lookup_insert_eq. Qed.

Lemma g_obs_float_set_obs_eq k l a :
  obs_float k (set_obs k (FloatCol l) a) = Some l.
Proof. unfold obs_float, set_obs; simpl. by rewrite lookup_insert_eq. Qed.

Lemma g_obs_int_set_obs_ne k k' c a :
  k' ≠ k → obs_int k (set_obs k' c a) = obs_int k a.
Proof. intros. unfold obs_int, set_obs; simpl. by rewrite lookup_insert_ne. Qed.

Lemma g_obs_float_set_obs_ne k k' c a :
  k' ≠ k → obs_float k (set_obs k' c a) = obs_float k a.
Proof.
  intros. unfold obs_float, set_obs; simpl. by rewrite lookup_insert_ne.
Qed.

(** ** The steps, one by one *)

Lemma g_percent_mito_rows a :
  percent_mito ops a = map (mito_frac ops (var_names a)) (X a).
Proof.
  unfold percent_mito, divide, sum_axis1, mito_genes; simpl.
  induction (X a) as [|row M IH]; simpl; [done|]. by rewrite IH.
Qed.

Lemma g_filter_cells_X thr a :
  X (filter_cells ops thr a)
  = List.filter (λ row, bool_decide (thr <= count_pos ops row)) (X a).
Proof.
  unfold filter_cells, count_pos_axis1; simpl.
  rewrite map_map. apply mask_select_filter.
Qed.

Lemma g_filter_cells_rows_pass thr a :
  Forall (λ row, thr <= count_pos ops row) (X (filter_cells ops thr a)).
Proof.
  rewrite g_filter_cells_X. apply Forall_forall. intros row Hrow.
  apply list_elem_of_In, filter_In in Hrow as [_ Hp].
  by apply bool_decide_eq_true in Hp.
Qed.

Lemma g_filter_cells_n_genes thr a :
  obs_int "n_genes" (filter_cells ops thr a)
  = Some (count_pos_axis1 ops (X (filter_cells ops thr a))).
Proof.
  unfold filter_cells.
  rewrite g_obs_int_subset_obs, g_obs_int_set_obs_eq.
  simpl. unfold count_pos_axis1. by rewrite mask_select_map.
Qed.

Lemma g_initial_cuts_n_genes args a :
  obs_int "n_genes" (annotate ops (initial_cuts ops args a))
  = Some (count_pos_axis1 ops (X (filter_cells ops (thr_min_genes args) a))).
Proof.
  unfold annotate. rewrite !g_obs_int_set_obs_ne by done.
  unfold initial_cuts. rewrite <- g_filter_cells_n_genes. done.
Qed.

(** Line 74 never fails: the column it reads was written by line 54. *)
Lemma g_cut_n_genes_eq args a :
  cut_n_genes args (annotate ops (initial_cuts ops args a))
  = Some (after_n_genes ops args a).
Proof.
  unfold cut_n_genes. rewrite g_initial_cuts_n_genes. simpl.
  unfold after_n_genes, mask_n_genes, count_pos_axis1. by rewrite map_map.
Qed.

Lemma g_annotate_pm a :
  obs_float "percent_mito" (annotate ops a)
  = Some (map (mito_frac ops (var_names a)) (X a)).
Proof.
  unfold annotate. rewrite g_obs_float_set_obs_ne by done.
  rewrite g_obs_float_set_obs_eq. by rewrite g_percent_mito_rows.
Qed.

Lemma g_after_n_genes_pm args a :
  obs_float "percent_mito" (after_n_genes ops args a)
  = Some (map (mito_frac ops (var_names (after_n_genes ops args a)))
            (X (after_n_genes ops args a))).
Proof.
  unfold after_n_genes at 1. rewrite g_obs_float_subset_obs, g_annotate_pm.
  simpl. by rewrite mask_select_map.
Qed.

(** Line 75 never fails either. *)
Lemma g_cut_pct_mito_eq args a :
  cut_pct_mito ops args (after_n_genes ops args a)
  = Some (after_pct_mito ops args a).
Proof.
  unfold cut_pct_mito. rewrite g_after_n_genes_pm. simpl.
  unfold after_pct_mito, mask_pct_mito. by rewrite map_map.
Qed.

Lemma g_filter_engine_eq args a :
  filter_engine ops args a = Some (after_pct_mito ops args a).
Proof.
  unfold filter_engine. rewrite g_cut_n_genes_eq. simpl.
  apply g_cut_pct_mito_eq.
Qed.

Lemma g_after_pct_mito_pm args a :
  obs_float "percent_mito" (after_pct_mito ops args a)
  = Some (map (mito_frac ops (var_names (after_pct_mito ops args a)))
            (X (after_pct_mito ops args a))).
Proof.
  unfold after_pct_mito at 1.
  rewrite g_obs_float_subset_obs, g_after_n_genes_pm.
  simpl. by rewrite mask_select_map.
Qed.

Lemma g_after_pct_mito_n_counts args a :
  obs_num "n_counts" (after_pct_mito ops args a)
  = Some (sum_axis1 ops (X (after_pct_mito ops args a))).
Proof.
  unfold after_pct_mito, after_n_genes.
  rewrite !g_obs_num_subset_obs. unfold annotate at 2.
  rewrite g_obs_num_set_obs_eq. simpl.
  unfold sum_axis1. by rewrite !mask_select_map.
Qed.

Lemma g_after_pct_mito_rows args a :
  Forall (λ row, below ops (mito_frac ops (var_names (after_pct_mito ops args a)) row)
                   (thr_pct_mito args) = true)
         (X (after_pct_mito ops args a)).
Proof.
  unfold after_pct_mito, mask_pct_mito; simpl.
  apply (mask_select_test
    (λ row, below ops (mito_frac ops (var_names (initial_cuts ops args a)) row)
              (thr_pct_mito args))).
Qed.

(** ** Shape *)

Lemma g_wf_subset_obs m a : wf a → wf (subset_obs m a).
Proof.
  intros [H1 H2]. split; simpl.
  - unfold n_obs; simpl. by apply mask_select_length_eq.
  - by apply mask_select_Forall.
Qed.

Lemma g_wf_subset_var m a : wf a → wf (subset_var m a).
Proof.
  intros [H1 H2]. split; simpl.
  - by rewrite length_map.
  - apply Forall_map. eapply Forall_impl; [exact H2|].
    intros row Hrow; simpl. unfold n_vars; simpl.
    by apply mask_select_length_eq.
Qed.

Lemma g_wf_initial_cuts args a : wf a → wf (initial_cuts ops args a).
Proof.
  intros Hwf. unfold initial_cuts, filter_genes, filter_cells.
  apply g_wf_subset_var.
  apply (g_wf_subset_obs _ (set_obs "n_genes" _ a)). exact Hwf.
Qed.

Lemma g_wf_after_pct_mito args a : wf a → wf (after_pct_mito ops args a).
Proof.
  intros Hwf. unfold after_pct_mito, after_n_genes.
  do 2 apply g_wf_subset_obs.
  apply (g_wf_initial_cuts args) in Hwf. exact Hwf.
Qed.

Lemma g_nonneg_subset_obs m a :
  counts_nonneg ops a → counts_nonneg ops (subset_obs m a).
Proof. apply mask_select_Forall. Qed.

Lemma g_nonneg_subset_var m a :
  counts_nonneg ops a → counts_nonneg ops (subset_var m a).
Proof.
  unfold counts_nonneg; simpl. intros H. apply Forall_map.
  eapply Forall_impl; [exact H|]. intros row Hrow; simpl.
  by apply mask_select_Forall.
Qed.

Lemma g_nonneg_after_pct_mito args a :
  counts_nonneg ops a → counts_nonneg ops (after_pct_mito ops args a).
Proof.
  intros H. unfold after_pct_mito, after_n_genes.
  do 2 apply g_nonneg_subset_obs.
  unfold initial_cuts, filter_genes, filter_cells.
  apply g_nonneg_subset_var.
  by apply (g_nonneg_subset_obs _ (set_obs "n_genes" _ a)).
Qed.

(** ** Counting *)

Lemma g_count_pos_cons x v :
  count_pos ops (x :: v)
  = (if is_pos ops x then 1 else 0) + count_pos ops v.
Proof. unfold count_pos; simpl. destruct (is_pos ops x); simpl; lia. Qed.

Lemma g_count_pos_nonneg v : 0 <= count_pos ops v.
Proof. unfold count_pos. lia. Qed.

Lemma g_count_pos_mask_le m v :
  count_pos ops (Np.mask_select m v) <= count_pos ops v.
Proof.
  revert m. induction v as [|x v IH]; intros [|b m]; simpl;
    try apply g_count_pos_nonneg; try done.
  specialize (IH m). destruct b; rewrite !g_count_pos_cons;
    destruct (is_pos ops x); lia.
Qed.

Lemma g_count_pos_nonzero v :
  Forall (λ x, is_pos ops x = is_nonzero ops x) v →
  count_pos ops v = count_nonzero ops v.
Proof.
  intros H. unfold count_pos, count_nonzero. do 2 f_equal.
  induction H as [|x v Hx _ IH]; simpl; [done|]. by rewrite Hx, IH.
Qed.

Lemma g_count_pos_axis1_nonzero M :
  Forall (Forall (λ x, is_pos ops x = is_nonzero ops x)) M →
  count_pos_axis1 ops M = map (count_nonzero ops) M.
Proof.
  intros H. unfold count_pos_axis1. apply map_ext_in.
  intros row Hrow. apply g_count_pos_nonzero.
  eapply Forall_forall in H; [exact H|]. by apply list_elem_of_In.
Qed.

(** ** Transposition *)

Lemma g_column_lookup j (M : list (list V)) i row :
  M !! i = Some row →
  column_of ops j M !! i = Some (default (vzero ops) (row !! j)).
Proof.
  intros H. unfold column_of.
  change (map ?f M) with (f <$> M). by rewrite list_lookup_fmap, H.
Qed.

Lemma g_transpose_lookup n (M : list (list V)) j :
  (j < n)%nat → transpose ops n M !! j = Some (column_of ops j M).
Proof.
  intros H. unfold transpose.
  change (map ?f (seq 0 n)) with (f <$> seq 0 n).
  rewrite list_lookup_fmap, lookup_seq_lt by done. done.
Qed.

Lemma g_column_transpose n (M : list (list V)) i row :
  M !! i = Some row → length row = n →
  column_of ops i (transpose ops n M) = row.
Proof.
  intros Hi <-. unfold transpose, column_of at 1. rewrite map_map.
  transitivity (map (λ j, id (default (vzero ops) (row !! j)))
                  (seq 0 (length row))).
  - apply map_ext. intros j. by rewrite (g_column_lookup j M i row).
  - rewrite map_seq_lookup. apply map_id.
Qed.

Lemma g_axis0_transpose {B : Type} (g : list V → B) n (M : list (list V)) :
  Forall (λ row, length row = n) M →
  map (λ i, g (column_of ops i (transpose ops n M))) (seq 0 (length M))
  = map g M.
Proof.
  intros HM. rewrite <- (map_seq_lookup [] g M).
  apply map_ext_in. intros i Hi%in_seq.
  destruct (lookup_lt_is_Some_2 M i) as [row Hrow]; [lia|].
  rewrite Hrow; simpl. f_equal.
  apply g_column_transpose; [done|].
  exact (Forall_lookup_1 _ _ _ _ HM Hrow).
Qed.

Lemma g_loom_nUMI a :
  wf a →
  col_attrs (loom_output ops a) !! "nUMI"
  = Some (NumCol (map (vsum_cell ops) (X a))).
Proof.
  intros [_ H]. unfold loom_output; cbn [col_attrs].
  rewrite !lookup_insert_ne by done. rewrite lookup_singleton_eq.
  unfold sum_axis0. by rewrite (g_axis0_transpose (vsum_cell ops)).
Qed.

Lemma g_loom_nGene a :
  wf a →
  col_attrs (loom_output ops a) !! "nGene"
  = Some (IntCol (count_pos_axis1 ops (X a))).
Proof.
  intros [_ H]. unfold loom_output; cbn [col_attrs].
  rewrite lookup_insert_ne by done. rewrite lookup_insert_eq.
  unfold count_pos_axis0, count_pos_axis1.
  by rewrite (g_axis0_transpose (count_pos ops)).
Qed.


(** ** The engine against the steps of the specification *)

Lemma g_represents_subset_obs (p : QCell V F → bool) a genes cs :
  represents a genes cs →
  represents (subset_obs (map p cs) a) genes (List.filter p cs).
Proof.
  intros (Hv & Ho & HX & Hng & Hnc & Hpm). unfold represents; simpl.
  rewrite !lookup_fmap, Hng, Hnc, Hpm, Ho, HX; simpl.
  by rewrite !mask_select_map_test.
Qed.

Lemma g_represents_cut_subset_obs (p : Cell V → bool) a genes cs :
  represents_cut a genes cs →
  represents_cut (subset_obs (map p cs) a) genes (List.filter p cs).
Proof.
  intros (Hv & Ho & HX & Hng). unfold represents_cut; simpl.
  rewrite !lookup_fmap, Hng, Ho, HX; simpl.
  by rewrite !mask_select_map_test.
Qed.

(** Step 1 is line 54. *)
Lemma g_filter_cells_step1 thr a :
  wf a → counts_nonneg ops a →
  represents_cut (filter_cells ops thr a) (var_names a)
    (step1 ops thr (zip (obs_names a) (X a))).
Proof.
  intros [Hlen _] Hnn. unfold filter_cells, step1.
  set (cells0 := map (λ ir : string * list V,
                        mkCell ir.1 ir.2 (count_nonzero ops ir.2))
                     (zip (obs_names a) (X a))).
  assert (represents_cut
            (set_obs "n_genes" (IntCol (count_pos_axis1 ops (X a))) a)
            (var_names a) cells0) as Hrep.
  { unfold represents_cut, cells0; simpl. rewrite !map_map; simpl.
    rewrite lookup_insert_eq.
    change (map (λ x : string * list V, x.1)) with (map (@fst string (list V))).
    change (map (λ x : string * list V, x.2)) with (map (@snd string (list V))).
    rewrite map_fst_zip, map_snd_zip by done.
    split_and!; try done.
    rewrite g_count_pos_axis1_nonzero by done.
    rewrite <- (map_snd_zip (obs_names a) (X a)) at 1 by done.
    by rewrite map_map. }
  replace (map (λ n, bool_decide (thr <= n)) (count_pos_axis1 ops (X a)))
    with (map (λ c : Cell V, thr <=? genes_detected c) cells0).
  { by apply g_represents_cut_subset_obs. }
  destruct Hrep as (_ & _ & _ & Hng). simpl in Hng.
  rewrite lookup_insert_eq in Hng. injection Hng as ->.
  rewrite map_map. apply map_ext. intros c. by rewrite bool_decide_leb.
Qed.

Lemma g_cells_detected_column n j (cs : list (Cell V)) :
  (j < n)%nat →
  Forall (λ row, length row = n) (map counts cs) →
  Forall (Forall (λ x, is_pos ops x = is_nonzero ops x)) (map counts cs) →
  count_pos ops (column_of ops j (map counts cs)) = cells_detected ops j cs.
Proof.
  intros Hj. induction cs as [|c cs IH]; intros Hlen Hnn; [done|].
  simpl in Hlen, Hnn.
  apply Forall_cons in Hlen as [Hc Hlen]. apply Forall_cons in Hnn as [Hp Hnn].
  specialize (IH Hlen Hnn).
  destruct (lookup_lt_is_Some_2 (counts c) j) as [x Hx]; [lia|].
  pose proof (Forall_lookup_1 _ _ _ _ Hp Hx) as Epos. simpl in Epos.
  unfold column_of in *. simpl map. rewrite g_count_pos_cons, IH, Hx. simpl.
  unfold cells_detected. simpl. rewrite Hx. simpl. rewrite Epos.
  destruct (is_nonzero ops x); simpl length; lia.
Qed.

(** Step 2 is line 55. *)
Lemma g_filter_genes_step2 thr a1 genes cs :
  represents_cut a1 genes cs → wf a1 → counts_nonneg ops a1 →
  represents_cut (filter_genes ops thr a1)
    (step2 ops thr genes cs).1 (step2 ops thr genes cs).2.
Proof.
  intros (Hv & Ho & HX & Hng) [_ Hrows] Hnn.
  unfold counts_nonneg in Hnn. rewrite HX in Hnn, Hrows.
  unfold n_vars in Hrows. rewrite Hv in Hrows.
  assert (Hmask :
    map (λ n, bool_decide (thr <= n)) (count_pos_axis0 ops (n_vars a1) (X a1))
    = map (λ j, thr <=? cells_detected ops j cs) (seq 0 (length genes))).
  { unfold count_pos_axis0, n_vars. rewrite map_map, Hv, HX.
    apply map_ext_in. intros j Hj%in_seq.
    rewrite bool_decide_leb.
    rewrite (g_cells_detected_column (length genes)); [done|lia|done..]. }
  unfold filter_genes, step2, represents_cut.
  cbn [X obs_names var_names obs subset_var set_var fst snd].
  rewrite Hmask, Hv, Ho, HX, Hng, !map_map. simpl.
  split_and!; try done.
  - apply mask_select_restrict.
  - apply map_ext. intros c. apply mask_select_restrict.
Qed.

Lemma g_mito_frac_spec genes row :
  mito_frac ops genes row
  = vdiv ops (mito_counts ops genes row) (vsum ops row).
Proof. unfold mito_frac, mito_counts. by rewrite mask_select_restrict. Qed.

(** Step 3 is lines 59-64. *)
Lemma g_annotate_step3 a2 genes cs :
  represents_cut a2 genes cs →
  represents (annotate ops a2) genes (step3 ops genes cs).
Proof.
  intros (Hv & Ho & HX & Hng).
  unfold represents, annotate, step3.
  cbn [X obs_names var_names obs set_obs].
  rewrite lookup_insert_eq, !lookup_insert_ne, lookup_insert_eq by done.
  rewrite g_percent_mito_rows, Hv, Ho, HX, Hng.
  unfold sum_axis1. rewrite !map_map. simpl.
  split_and!; try done.
  do 2 f_equal. apply map_ext. intros c. apply g_mito_frac_spec.
Qed.

(** Steps 4 and 5 are lines 74 and 75. *)
Lemma g_cut_n_genes_step4 args a3 genes cs :
  represents a3 genes cs →
  ∃ a4, cut_n_genes args a3 = Some a4
        ∧ represents a4 genes (step4 (thr_n_genes args) cs).
Proof.
  intros Hrep. pose proof Hrep as (_ & _ & _ & Hng & _).
  unfold cut_n_genes, obs_int. rewrite Hng. simpl. eexists; split; [done|].
  rewrite map_map.
  rewrite (map_ext _ (λ q : QCell V F,
                        genes_detected (base q) <? thr_n_genes args))
    by (intros q; apply bool_decide_ltb).
  by apply g_represents_subset_obs.
Qed.

Lemma g_cut_pct_mito_step5 args a4 genes cs :
  represents a4 genes cs →
  ∃ a5, cut_pct_mito ops args a4 = Some a5
        ∧ represents a5 genes (step5 ops (thr_pct_mito args) cs).
Proof.
  intros Hrep. pose proof Hrep as (_ & _ & _ & _ & _ & Hpm).
  unfold cut_pct_mito, obs_float. rewrite Hpm. simpl. eexists; split; [done|].
  rewrite map_map. by apply g_represents_subset_obs.
Qed.


(** ** The statistics, the plots and the script as a whole *)

Lemma g_print_stats_none_iff a : print_stats ops a = None ↔ n_vars a = 0%nat.
Proof.
  unfold print_stats.
  destruct (n_vars a) as [|n] eqn:En; [done|].
  unfold sum_axis0, count_pos_axis0. simpl. split; [|done].
  discriminate.
Qed.

Lemma g_plot_eq args a :
  plot draws (annotate ops (initial_cuts ops args a))
  = if draws
         (count_pos_axis1 ops (X (filter_cells ops (thr_min_genes args) a)))
         (sum_axis1 ops (X (initial_cuts ops args a)))
         (percent_mito ops (initial_cuts ops args a))
    then Some () else None.
Proof.
  assert (H2 : obs_num "n_counts" (annotate ops (initial_cuts ops args a))
               = Some (sum_axis1 ops (X (initial_cuts ops args a))))
    by (unfold annotate; apply g_obs_num_set_obs_eq).
  assert (H3 : obs_float "percent_mito"
                 (annotate ops (initial_cuts ops args a))
               = Some (percent_mito ops (initial_cuts ops args a)))
    by (rewrite g_percent_mito_rows; apply g_annotate_pm).
  unfold plot. by rewrite g_initial_cuts_n_genes, H2, H3.
Qed.

Lemma g_script_eq args a :
  script ops draws args a
  = r ← print_stats ops a;
    _ ← plot draws (annotate ops (initial_cuts ops args a));
    Some (r, loom_output ops (after_pct_mito ops args a)).
Proof.
  unfold script. destruct (print_stats ops a) as [r|]; [|done]. simpl.
  destruct (plot draws _) as [[]|]; [|done]. simpl.
  rewrite g_cut_n_genes_eq. simpl. by rewrite g_cut_pct_mito_eq.
Qed.

Lemma g_initial_cuts_X args a :
  X (initial_cuts ops args a)
  = map (Np.mask_select
           (map (λ n, bool_decide (thr_min_cells args <= n))
              (count_pos_axis0 ops
                 (n_vars (filter_cells ops (thr_min_genes args) a))
                 (X (filter_cells ops (thr_min_genes args) a)))))
        (X (filter_cells ops (thr_min_genes args) a)).
Proof. done. Qed.

Lemma g_engine_rows args a :
  ∃ R,
    X (after_pct_mito ops args a)
      = map (Np.mask_select
               (map (λ n, bool_decide (thr_min_cells args <= n))
                  (count_pos_axis0 ops
                     (n_vars (filter_cells ops (thr_min_genes args) a))
                     (X (filter_cells ops (thr_min_genes args) a))))) R
    ∧ obs_int "n_genes" (after_pct_mito ops args a)
      = Some (map (count_pos ops) R)
    ∧ Forall (λ o, thr_min_genes args <= count_pos ops o < thr_n_genes args)
        R.
Proof.
  set (a1 := filter_cells ops (thr_min_genes args) a).
  set (m4 := mask_n_genes ops args a1).
  set (m5 := mask_pct_mito ops args (after_n_genes ops args a)).
  exists (Np.mask_select m5 (Np.mask_select m4 (X a1))).
  split_and!.
  - change (X (after_pct_mito ops args a))
      with (Np.mask_select m5
              (Np.mask_select m4 (X (initial_cuts ops args a)))).
    rewrite g_initial_cuts_X. fold a1. by rewrite !mask_select_map.
  - unfold after_pct_mito, after_n_genes. fold a1 m4 m5.
    rewrite !g_obs_int_subset_obs, g_initial_cuts_n_genes. fold a1. simpl.
    unfold count_pos_axis1. by rewrite !mask_select_map.
  - apply mask_select_Forall. unfold m4, mask_n_genes.
    rewrite mask_select_filter. apply Forall_forall. intros o Ho.
    apply list_elem_of_In, filter_In in Ho as [Ho Hp].
    apply bool_decide_eq_true in Hp. split; [|done].
    pose proof (g_filter_cells_rows_pass (thr_min_genes args) a) as Hpass.
    eapply Forall_forall in Hpass; [exact Hpass|]. by apply list_elem_of_In.
Qed.


(** X3.  Whatever the arithmetic and whatever the drawing does, the
    script gets as far as the call of [lp.create] exactly when the input
    matrix has at least one gene, so that the [min()] of line 40 has
    something to reduce, and the plots of lines 68-72 return on the
    three columns they read; no other statement raises.  When it gets
    there, what it printed are the statistics of the input and what it
    hands to [lp.create] is built from the state after line 75.  In
    particular, if the drawing fails when it is given no cell, the script
    raises whenever lines 54-55 leave no cell. *)
Theorem script_reaches_writer (args : Args T) (a : AnnData V F) :
  let ng := count_pos_axis1 ops (X (filter_cells ops (thr_min_genes args) a)) in
  let nc := sum_axis1 ops (X (initial_cuts ops args a)) in
  let pm := percent_mito ops (initial_cuts ops args a) in
  (script ops draws args a = None
     ↔ n_vars a = 0%nat ∨ draws ng nc pm = false)
  ∧ (∀ r out, script ops draws args a = Some (r, out) ↔
       print_stats ops a = Some r
       ∧ draws ng nc pm = true
       ∧ out = loom_output ops (after_pct_mito ops args a))
  ∧ (draws [] [] [] = false → X (initial_cuts ops args a) = [] →
       script ops draws args a = None).
Proof.
  intros ng nc pm.
  pose proof (g_script_eq args a) as E. rewrite g_plot_eq in E.
  fold ng nc pm in E.
  pose proof (g_print_stats_none_iff a) as Hnone.
  assert (H1 : script ops draws args a = None
               ↔ n_vars a = 0%nat ∨ draws ng nc pm = false).
  { rewrite E, <- Hnone.
    destruct (print_stats ops a) as [r|]; simpl;
      destruct (draws ng nc pm); simpl; split; auto;
      try done; intros [?|?]; done. }
  split; [exact H1|]. split.
  - intros r out. rewrite E.
    destruct (print_stats ops a) as [r'|]; simpl.
    + destruct (draws ng nc pm); simpl.
      * split; [by intros [= -> ->] | by intros ([= ->] & _ & ->)].
      * split; [done | by intros (_ & ? & _)].
    + split; [done | by intros (? & _)].
  - intros Hd HX. apply H1. right.
    assert (X (filter_cells ops (thr_min_genes args) a) = []) as HX1.
    { rewrite g_initial_cuts_X in HX. by apply map_eq_nil in HX. }
    unfold ng, nc, pm. rewrite g_percent_mito_rows, HX, HX1. exact Hd.
Qed.

(** X5.  Whatever the arithmetic, in the state the engine returns the
    four annotations it wrote are still there and aligned with the
    matrix: [obs['n_genes']] has one entry per row, each in the window
    from [thr_min_genes] (included) to [thr_n_genes] (excluded) and at
    least the number of positive entries the row still has;
    [obs['n_counts']] holds, row by row, the sum that line 64 computes on
    that row; [obs['percent_mito']] holds the quotient that lines 61-62
    compute on that row, each below the threshold by the comparison of
    line 75; [var['n_cells']] has one entry per gene, each at least
    [thr_min_cells]. *)
Theorem recorded_columns (args : Args T) (a : AnnData V F) :
  ∃ r ng ncells,
    filter_engine ops args a = Some r
    ∧ obs_int "n_genes" r = Some ng
    ∧ obs_num "n_counts" r = Some (map (vsum ops) (X r))
    ∧ obs_float "percent_mito" r
      = Some (map (mito_frac ops (var_names r)) (X r))
    ∧ var r !! "n_cells" = Some (IntCol ncells)
    ∧ Forall2 (λ row n, count_pos ops row <= n
                        ∧ thr_min_genes args <= n < thr_n_genes args)
        (X r) ng
    ∧ Forall (λ row, below ops (mito_frac ops (var_names r) row)
                       (thr_pct_mito args) = true) (X r)
    ∧ length ncells = n_vars r
    ∧ Forall (λ n, thr_min_cells args <= n) ncells.
Proof.
  destruct (g_engine_rows args a) as (R & HX & Hng & HR).
  set (a1 := filter_cells ops (thr_min_genes args) a) in *.
  set (ncs := count_pos_axis0 ops (n_vars a1) (X a1)) in *.
  set (mg := map (λ n, bool_decide (thr_min_cells args <= n)) ncs) in *.
  exists (after_pct_mito ops args a), (map (count_pos ops) R),
    (Np.mask_select mg ncs).
  split_and!.
  - apply g_filter_engine_eq.
  - exact Hng.
  - apply g_after_pct_mito_n_counts.
  - apply g_after_pct_mito_pm.
  - unfold after_pct_mito, after_n_genes.
    cbn [var subset_obs annotate set_obs]. unfold initial_cuts. fold a1.
    unfold filter_genes. fold ncs mg. cbn [var subset_var set_var].
    by rewrite lookup_fmap, lookup_insert_eq.
  - rewrite HX. apply Forall2_fmap, Forall_Forall2_diag.
    eapply Forall_impl; [exact HR|]. intros o Ho; simpl.
    split; [apply g_count_pos_mask_le | exact Ho].
  - apply g_after_pct_mito_rows.
  - unfold after_pct_mito, after_n_genes, n_vars.
    cbn [var_names subset_obs annotate set_obs]. unfold initial_cuts. fold a1.
    unfold filter_genes. fold ncs mg. cbn [var_names subset_var set_var].
    apply mask_select_length_eq.
    unfold ncs, count_pos_axis0. by rewrite length_map, length_seq.
  - unfold mg. eapply Forall_impl; [apply mask_select_test|].
    intros n Hn; simpl in Hn. by apply bool_decide_eq_true in Hn.
Qed.


(** ** Mitochondrial genes *)

Lemma g_mito_counts_insert genes (row : list V) j g v :
  genes !! j = Some g → is_mito g = false →
  mito_counts ops genes (<[j:=v]> row) = mito_counts ops genes row.
Proof.
  intros Hj Hg. unfold mito_counts.
  rewrite <- !mask_select_restrict. f_equal.
  apply mask_select_insert_false.
  change (map ?f ?l) with (f <$> l).
  by rewrite list_lookup_fmap, Hj; simpl; rewrite Hg.
Qed.

(** C9, as the code has it.  Mitochondrial genes are detected by an
    exact, case-sensitive prefix: a gene counts as mitochondrial exactly
    when its identifier is "MT-" followed by anything, so identifiers that
    start with "mt-", "Mt-" or "mT-" do not.  Whatever the arithmetic, the
    mito fraction of a cell is the quotient of the sum of its counts over
    the genes detected this way by the sum of all its counts.  The counts
    of a gene that is not detected this way are no part of the first sum,
    whatever they are: changing them leaves the numerator as it is, and
    the fraction becomes the same numerator over the new total. *)
Theorem mito_detection_is_exact_prefix :
  (∀ g, is_mito g = true ↔ ∃ s, g = "MT-" +:+ s)
  ∧ (∀ s, is_mito ("mt-" +:+ s) = false
          ∧ is_mito ("Mt-" +:+ s) = false
          ∧ is_mito ("mT-" +:+ s) = false)
  ∧ (∀ a : AnnData V F,
       mito_genes a = map is_mito (var_names a)
       ∧ percent_mito ops a
         = map (λ row, vdiv ops (mito_counts ops (var_names a) row)
                         (vsum ops row)) (X a))
  ∧ (∀ genes (row : list V) j g v,
       genes !! j = Some g → is_mito g = false →
       mito_counts ops genes (<[j:=v]> row) = mito_counts ops genes row
       ∧ mito_frac ops genes (<[j:=v]> row)
         = vdiv ops (mito_counts ops genes row) (vsum ops (<[j:=v]> row))).
Proof.
  split_and!.
  - apply is_mito_prefix.
  - done.
  - intros a. split; [done|]. rewrite g_percent_mito_rows.
    apply map_ext. intros row. apply g_mito_frac_spec.
  - intros genes row j g v Hj Hg.
    rewrite g_mito_frac_spec, (g_mito_counts_insert _ _ _ _ _ Hj Hg). done.
Qed.

End generic.

(** ** The theorems over any arithmetic, at the sample data *)

Lemma g_wf_sample : Generic.wf g_sample.
Proof. split; [reflexivity | repeat constructor]. Defined.

Lemma g_nonneg_sample : Generic.counts_nonneg exact_arith g_sample.
Proof. repeat (constructor; try reflexivity). Defined.



Lemma script_reaches_writer_witness :
  draws_some_cell [] [] [] = false
  ∧ Generic.X (Generic.initial_cuts exact_arith g_strict_args g_sample) = []
  ∧ Generic.script exact_arith draws_some_cell g_strict_args g_sample = None.
Proof.
  assert (H1 : draws_some_cell [] [] [] = false) by reflexivity.
  assert (H2 : Generic.X (Generic.initial_cuts exact_arith g_strict_args g_sample) = [])
    by (vm_compute; reflexivity).
  split; [exact H1|]. split; [exact H2|].
  exact (proj2 (proj2 (script_reaches_writer exact_arith draws_some_cell g_strict_args g_sample))
           H1 H2).
Defined.

Lemma mito_detection_is_exact_prefix_witness :
  ["MT-CO1"; "ACTB"] !! 1%nat = Some "ACTB"
  ∧ is_mito "ACTB" = false
  ∧ Generic.mito_counts exact_arith ["MT-CO1"; "ACTB"]
      (<[1%nat := 99]> [10; 10])
    = Generic.mito_counts exact_arith ["MT-CO1"; "ACTB"] [10; 10]
  ∧ Generic.mito_frac exact_arith ["MT-CO1"; "ACTB"]
      (<[1%nat := 99]> [10; 10])
    = vdiv exact_arith
        (Generic.mito_counts exact_arith ["MT-CO1"; "ACTB"] [10; 10])
        (vsum exact_arith (<[1%nat := 99]> [10; 10])).
Proof.
  assert (H1 : ["MT-CO1"; "ACTB"] !! 1%nat = Some "ACTB") by reflexivity.
  assert (H2 : is_mito "ACTB" = false) by reflexivity.
  split; [exact H1|]. split; [exact H2|].
  exact (proj2 (proj2 (proj2 (mito_detection_is_exact_prefix exact_arith)))
           ["MT-CO1"; "ACTB"] [10; 10] 1%nat "ACTB" 99 H1 H2).
Defined.
